(** * pykafka [Cluster]: broker/topic reconciliation and offset-manager discovery

    A shallow embedding of [pykafka/cluster.py] (Python 2).  The [Cluster]
    object is a record, its two dicts are finite maps, and every method is
    a computation in a small state-and-exception monad whose state also
    carries the observable effects (requests sent, sleeps, log records).
    The collaborators that live in other modules ([Broker], [Topic], the
    protocol messages, the network and [random]) appear as records and as
    oracle arguments. *)

From stdpp Require Import base gmap sets list strings.
From Stdlib Require Import ZArith Ascii.

(** ** Protocol messages and collaborator handles *)

(** Modelled from the spec: [protocol.BrokerMetadata] (protocol.py is not
    part of the sources): identity, host and port of one broker. *)
Module BrokerMetadata.
Record t := mk { id : Z; host : string; port : Z }.
End BrokerMetadata.

(** Modelled from the spec: [protocol.TopicMetadata]: a name and a
    partition description (kept opaque, here a list of partition ids). *)
Module TopicMetadata.
Record t := mk { name : string; partitions : list Z }.
End TopicMetadata.

(** Modelled from the spec: the metadata response, two dicts.  A Python 2
    dict iterates in an arbitrary but fixed order, so each dict is the list
    of its [iteritems()], in that order; its keys are pairwise distinct. *)
Module MetadataResponse.
Record t := mk {
  brokers : list (Z * BrokerMetadata.t);
  topics : list (string * TopicMetadata.t)
}.
End MetadataResponse.

(** Modelled from the spec: [protocol.ConsumerMetadataResponse], of which
    only [coordinator_id] is read. *)
Module ConsumerMetadataResponse.
Record t := mk { coordinator_id : Z }.
End ConsumerMetadataResponse.

(** Modelled from the spec: a [Broker] handle (broker.py is not part of the
    sources).  [oid] is the identity of the Python object: two handles are
    the same object exactly when their [oid]s agree. *)
Module Broker.
Record t := mk {
  oid : nat;
  id : Z;
  host : string;
  port : Z;
  socket_timeout_ms : Z;
  offsets_channel_socket_timeout_ms : Z;
  buffer_size : Z
}.
(** [Broker.from_metadata(meta, handler, socket_timeout_ms,
    offsets_channel_socket_timeout_ms, buffer_size=...)], allocated at
    object identity [o]. *)
Definition from_metadata (o : nat) (meta : BrokerMetadata.t)
    (socket_timeout_ms offsets_channel_socket_timeout_ms buffer_size : Z) : t :=
  mk o (BrokerMetadata.id meta) (BrokerMetadata.host meta) (BrokerMetadata.port meta)
     socket_timeout_ms offsets_channel_socket_timeout_ms buffer_size.
End Broker.

(** Modelled from the spec: a [Topic] handle (topic.py is not part of the
    sources).  What the handle does with metadata is its own business, so
    the handle records what it was given: the metadata of its construction
    followed by the argument of every [update(meta)], oldest first. *)
Module Topic.
Record t := mk { oid : nat; received : list TopicMetadata.t }.
Definition update (meta : TopicMetadata.t) (tp : t) : t :=
  mk (oid tp) (received tp ++ [meta]).
End Topic.

(** ** The cluster object *)

Record Cluster := mkCluster {
  _seed_hosts : string;
  _socket_timeout_ms : Z;
  _offsets_channel_socket_timeout_ms : Z;
  _brokers : gmap Z Broker.t;
  _topics : gmap string Topic.t;
  _socket_receive_buffer_bytes : Z;
  _exclude_internal_topics : bool
}.

(** ** Exceptions, effects and the monad *)

(** What the metadata fetch talks to: a broker of the map, or the temporary
    [Broker(-1, h, p, ...)] built from a seed entry (host and port are the
    two strings of the entry). *)
Inductive Endpoint :=
| Known (b : Broker.t)
| Temp (h p : string).

(** An element of the candidate list of [_get_metadata]: a [Broker] or a
    string ([isinstance(broker, basestring)]). *)
Inductive Candidate :=
| CBroker (b : Broker.t)
| CString (s : string).

Inductive exn :=
| IndexError
    (* random.choice on an empty sequence *)
| ValueError
    (* h, p = broker.split(':') with other than two parts *)
| UnableToConnect
    (* Exception('Unable to connect to a broker to fetch metadata.') *)
| HostPortChange (b : Broker.t)
    (* Exception('Broker host/port change detected! %s', broker) *)
| CoordinatorNotFound (coordinator_id : Z)
    (* Exception('Coordinator broker with id {} not found') *)
| KeyError
    (* d[k] on a dict without key k *)
| RequestError (code : nat)
    (* anything raised by a collaborator: connection refused, timeout, ... *).

Inductive LogRecord :=
| UnableToConnectTo (c : Candidate)
| RemovingBroker (b : Broker.t)
| DiscoveredBroker (host : string) (port : Z)
| RemovingTopic (tp : Topic.t)
| DiscoveredTopic (tp : Topic.t)
| ErrorDiscoveringOffsetManager (backoff : Z).

Inductive Event :=
| EvRequestMetadata (ep : Endpoint)
| EvConsumerMetadataRequest (b : Broker.t) (consumer_group : string)
| EvSleep (secs : Z)
| EvLog (r : LogRecord).

(** The answer of a collaborator. *)
Inductive reply (A : Type) :=
| Answer (a : A)
| Failure (e : exn).
Arguments Answer {A} a.
Arguments Failure {A} e.

Definition failed {A} (r : reply A) : Prop :=
  match r with Failure _ => True | Answer _ => False end.

(** The machine state: the cluster object, the next free object identity,
    the effects so far (oldest first) and the number of calls made to the
    random generator. *)
Record State := mkState {
  self : Cluster;
  next_oid : nat;
  events : list Event;
  draws : nat
}.

Inductive result (A : Type) :=
| Return (a : A)
| Raise (e : exn)
| OutOfFuel.
Arguments Return {A} a.
Arguments Raise {A} e.
Arguments OutOfFuel {A}.

Definition M (A : Type) : Type := State → State * result A.

#[export] Instance M_ret : MRet M := λ A a st, (st, Return a).
#[export] Instance M_bind : MBind M := λ A B f m st,
  match m st with
  | (st', Return a) => f a st'
  | (st', Raise e) => (st', Raise e)
  | (st', OutOfFuel) => (st', OutOfFuel)
  end.

Definition raise {A} (e : exn) : M A := λ st, (st, Raise e).

(** [try: m  except Exception as e: h e] *)
Definition try_except {A} (m : M A) (h : exn → M A) : M A := λ st,
  match m st with
  | (st', Raise e) => h e st'
  | r => r
  end.

Definition get_self : M Cluster := λ st, (st, Return (self st)).

Definition with_brokers (b : gmap Z Broker.t) (c : Cluster) : Cluster :=
  mkCluster (_seed_hosts c) (_socket_timeout_ms c) (_offsets_channel_socket_timeout_ms c)
    b (_topics c) (_socket_receive_buffer_bytes c) (_exclude_internal_topics c).

Definition with_topics (t : gmap string Topic.t) (c : Cluster) : Cluster :=
  mkCluster (_seed_hosts c) (_socket_timeout_ms c) (_offsets_channel_socket_timeout_ms c)
    (_brokers c) t (_socket_receive_buffer_bytes c) (_exclude_internal_topics c).

(** Mutations of [self._brokers] and [self._topics]. *)
Definition set_brokers (b : gmap Z Broker.t) : M unit := λ st,
  (mkState (with_brokers b (self st)) (next_oid st) (events st) (draws st), Return tt).

Definition set_topics (t : gmap string Topic.t) : M unit := λ st,
  (mkState (with_topics t (self st)) (next_oid st) (events st) (draws st), Return tt).

(** A fresh object identity. *)
Definition alloc : M nat := λ st,
  (mkState (self st) (S (next_oid st)) (events st) (draws st), Return (next_oid st)).

Definition emit (e : Event) : M unit := λ st,
  (mkState (self st) (next_oid st) (events st ++ [e]) (draws st), Return tt).

Definition log (r : LogRecord) : M unit := emit (EvLog r).

(** [for x in l: body x], stopped by the first exception. *)
Fixpoint for_each {X} (l : list X) (body : X → M unit) : M unit :=
  match l with
  | [] => mret tt
  | x :: l' => body x;; for_each l' body
  end.

(** [for x in l: body x] followed by [after], where the body may [return]:
    [Some v] is [return v], [None] goes on with the next element. *)
Fixpoint for_return {X A} (l : list X) (body : X → M (option A)) (after : M A) : M A :=
  match l with
  | [] => after
  | x :: l' => r ← body x;
               match r with
               | Some v => mret v
               | None => for_return l' body after
               end
  end.

(** ** Python strings *)

(** [s.split(sep)] for a one-character separator: never an empty list. *)
Fixpoint split (sep : Ascii.ascii) (s : string) : list string :=
  match s with
  | EmptyString => [EmptyString]
  | String c s' =>
      if Ascii.eqb c sep then EmptyString :: split sep s'
      else match split sep s' with
           | [] => [String c EmptyString]
           | w :: ws => String c w :: ws
           end
  end.

(** [topic_name.startswith(p)] *)
Definition startswith (p s : string) : bool := String.prefix p s.

(** [h, p = parts] *)
Definition unpack2 (parts : list string) : M (string * string) :=
  match parts with
  | [h; p] => mret (h, p)
  | _ => raise ValueError
  end.

(** ** [Cluster._get_metadata] *)

(** [broker.request_metadata()] on endpoint [ep]; the network [net] decides
    the outcome (for a temporary broker this includes its construction). *)
Definition request_metadata (net : Endpoint → reply MetadataResponse.t)
    (ep : Endpoint) : M MetadataResponse.t :=
  emit (EvRequestMetadata ep);;
  match net ep with
  | Answer md => mret md
  | Failure e => raise e
  end.

(** The candidate list: [self.brokers.values()] if the dict is non-empty,
    else [self._seed_hosts.split(',')]. *)
Definition candidates (c : Cluster) : list Candidate :=
  if negb (Nat.eqb (size (_brokers c)) 0)
  then CBroker <$> (map_to_list (_brokers c)).*2
  else CString <$> split ","%char (_seed_hosts c).

(** The body of the loop always returns or re-raises, so the loop never
    reaches a second candidate.  The log record names the candidate as the
    list holds it. *)
Definition _get_metadata (net : Endpoint → reply MetadataResponse.t)
    : M MetadataResponse.t :=
  me ← get_self;
  let brokers := candidates me in
  for_return brokers (λ broker,
    try_except
      (ep ← match broker with
            | CString s => '(h, p) ← unpack2 (split ":"%char s); mret (Temp h p)
            | CBroker b => mret (Known b)
            end;
       md ← request_metadata net ep;
       mret (Some md))
      (λ e, log (UnableToConnectTo broker);; raise e))
    (raise UnableToConnect).

(** ** [Cluster._update_brokers] *)

(** [d[k]] *)
Definition getitem {K V} `{Countable K} (d : gmap K V) (k : K) : M V :=
  match d !! k with
  | Some v => mret v
  | None => raise KeyError
  end.

Definition _update_brokers (broker_metadata : list (Z * BrokerMetadata.t)) : M unit :=
  me ← get_self;
  (* Remove old brokers *)
  let removed : gset Z := dom (_brokers me) ∖ list_to_set broker_metadata.*1 in
  for_each (elements removed) (λ id_,
    me ← get_self;
    b ← getitem (_brokers me) id_;
    log (RemovingBroker b);;
    set_brokers (delete id_ (_brokers me)));;
  (* Add/update current brokers *)
  for_each broker_metadata (λ '(id_, meta),
    me ← get_self;
    match _brokers me !! id_ with
    | None =>
        log (DiscoveredBroker (BrokerMetadata.host meta) (BrokerMetadata.port meta));;
        o ← alloc;
        set_brokers (<[id_ := Broker.from_metadata o meta (_socket_timeout_ms me)
                                (_offsets_channel_socket_timeout_ms me)
                                (_socket_receive_buffer_bytes me)]> (_brokers me))
    | Some broker =>
        if bool_decide (BrokerMetadata.host meta = Broker.host broker)
           && bool_decide (BrokerMetadata.port meta = Broker.port broker)
        then mret tt (* no changes *)
        else raise (HostPortChange broker)
    end).

(** ** [Cluster._should_exclude_topic] and [Cluster._update_topics] *)

Definition _should_exclude_topic (me : Cluster) (topic_name : string) : bool :=
  if negb (_exclude_internal_topics me) then false
  else startswith "__" topic_name.

Definition _update_topics (metadata : list (string * TopicMetadata.t)) : M unit :=
  me ← get_self;
  (* Remove old topics *)
  let removed : gset string := dom (_topics me) ∖ list_to_set metadata.*1 in
  for_each (elements removed) (λ name,
    me ← get_self;
    tp ← getitem (_topics me) name;
    log (RemovingTopic tp);;
    set_topics (delete name (_topics me)));;
  (* Add/update partition information *)
  for_each metadata (λ '(name, meta),
    me ← get_self;
    if negb (_should_exclude_topic me name) then
      match _topics me !! name with
      | None =>
          o ← alloc;
          let tp := Topic.mk o [meta] in
          set_topics (<[name := tp]> (_topics me));;
          log (DiscoveredTopic tp)
      | Some tp =>
          set_topics (<[name := Topic.update meta tp]> (_topics me))
      end
    else mret tt).

(** ** [Cluster.update] and [Cluster.__init__] *)

Definition update (net : Endpoint → reply MetadataResponse.t) : M unit :=
  metadata ← _get_metadata net;
  _update_brokers (MetadataResponse.brokers metadata);;
  _update_topics (MetadataResponse.topics metadata).

Definition set_self (c : Cluster) : M unit := λ st,
  (mkState c (next_oid st) (events st) (draws st), Return tt).

Definition __init__ (hosts : string)
    (socket_timeout_ms offsets_channel_socket_timeout_ms socket_receive_buffer_bytes : Z)
    (exclude_internal_topics : bool)
    (net : Endpoint → reply MetadataResponse.t) : M unit :=
  set_self (mkCluster hosts socket_timeout_ms offsets_channel_socket_timeout_ms
              ∅ ∅ socket_receive_buffer_bytes exclude_internal_topics);;
  update net.

(** ** [Cluster.get_offset_manager] *)

(** [random.choice(seq)], i.e. [seq[int(random() * len(seq))]]: the [k]-th
    call to the generator is decided by [rng k]; on an empty sequence the
    indexing raises [IndexError]. *)
Definition random_choice {A} (rng : nat → nat) (seq : list A) : M A := λ st,
  let st' := mkState (self st) (next_oid st) (events st) (S (draws st)) in
  match seq !! (rng (draws st) `mod` length seq)%nat with
  | Some x => (st', Return x)
  | None => (st', Raise IndexError)
  end.

Definition sleep (secs : Z) : M unit := emit (EvSleep secs).

Definition MAX_RETRIES : Z := 3.

(** The body of the [try]: the request is sent to [broker]; the network
    decides the outcome of attempt number [retries]. *)
Definition attempt (net : Z → Broker.t → string → reply ConsumerMetadataResponse.t)
    (retries : Z) (broker : Broker.t) (consumer_group : string)
    : M (reply ConsumerMetadataResponse.t) :=
  emit (EvConsumerMetadataRequest broker consumer_group);;
  mret (net retries broker consumer_group).

(** The [while True] loop; [fuel] bounds the number of iterations. *)
Fixpoint get_offset_manager_loop (fuel : nat)
    (net : Z → Broker.t → string → reply ConsumerMetadataResponse.t)
    (consumer_group : string) (broker : Broker.t) (backoff retries : Z) : M Broker.t :=
  match fuel with
  | O => λ st, (st, OutOfFuel)
  | S fuel' =>
      let retries := (retries + 1)%Z in
      res ← attempt net retries broker consumer_group;
      match res with
      | Failure e =>
          log (ErrorDiscoveringOffsetManager backoff);;
          if (retries <? MAX_RETRIES)%Z then
            sleep backoff;;
            get_offset_manager_loop fuel' net consumer_group broker (backoff ^ 2)%Z retries
          else raise e
      | Answer res =>
          me ← get_self;
          match _brokers me !! ConsumerMetadataResponse.coordinator_id res with
          | None => raise (CoordinatorNotFound (ConsumerMetadataResponse.coordinator_id res))
          | Some coordinator => mret coordinator
          end
      end
  end.

Definition get_offset_manager_fuel (fuel : nat) (rng : nat → nat)
    (net : Z → Broker.t → string → reply ConsumerMetadataResponse.t)
    (consumer_group : string) : M Broker.t :=
  me ← get_self;
  (* arbitrarily choose a broker, since this request can go to any *)
  id_ ← random_choice rng (map_to_list (_brokers me)).*1;
  broker ← getitem (_brokers me) id_;
  get_offset_manager_loop fuel net consumer_group broker 2 0.

Definition get_offset_manager := get_offset_manager_fuel (Z.to_nat MAX_RETRIES).

(** ** Reading a run *)

(** The configuration of a cluster object: everything but its two maps. *)
Definition settings (c : Cluster) : string * Z * Z * Z * bool :=
  (_seed_hosts c, _socket_timeout_ms c, _offsets_channel_socket_timeout_ms c,
   _socket_receive_buffer_bytes c, _exclude_internal_topics c).

(** The handle [_update_brokers] builds for [meta] in cluster [c]. *)
Definition new_broker (c : Cluster) (o : nat) (meta : BrokerMetadata.t) : Broker.t :=
  Broker.from_metadata o meta (_socket_timeout_ms c)
    (_offsets_channel_socket_timeout_ms c) (_socket_receive_buffer_bytes c).

(** [meta] names the address that handle [b] has. *)
Definition same_address (meta : BrokerMetadata.t) (b : Broker.t) : Prop :=
  BrokerMetadata.host meta = Broker.host b ∧ BrokerMetadata.port meta = Broker.port b.

(** The loop bodies of [_update_brokers] and [_update_topics], named. *)
Definition remove_broker : Z → M unit := λ id_,
  me ← get_self;
  b ← getitem (_brokers me) id_;
  log (RemovingBroker b);;
  set_brokers (delete id_ (_brokers me)).

Definition add_broker : Z * BrokerMetadata.t → M unit := λ '(id_, meta),
  me ← get_self;
  match _brokers me !! id_ with
  | None =>
      log (DiscoveredBroker (BrokerMetadata.host meta) (BrokerMetadata.port meta));;
      o ← alloc;
      set_brokers (<[id_ := Broker.from_metadata o meta (_socket_timeout_ms me)
                              (_offsets_channel_socket_timeout_ms me)
                              (_socket_receive_buffer_bytes me)]> (_brokers me))
  | Some broker =>
      if bool_decide (BrokerMetadata.host meta = Broker.host broker)
         && bool_decide (BrokerMetadata.port meta = Broker.port broker)
      then mret tt
      else raise (HostPortChange broker)
  end.

Definition remove_topic : string → M unit := λ name,
  me ← get_self;
  tp ← getitem (_topics me) name;
  log (RemovingTopic tp);;
  set_topics (delete name (_topics me)).

Definition add_topic : string * TopicMetadata.t → M unit := λ '(name, meta),
  me ← get_self;
  if negb (_should_exclude_topic me name) then
    match _topics me !! name with
    | None =>
        o ← alloc;
        let tp := Topic.mk o [meta] in
        set_topics (<[name := tp]> (_topics me));;
        log (DiscoveredTopic tp)
    | Some tp =>
        set_topics (<[name := Topic.update meta tp]> (_topics me))
    end
  else mret tt.

(** The effects of a step from [st] to [st']. *)
Definition new_events (st st' : State) : list Event :=
  drop (length (events st)) (events st').

(** The brokers the coordinator queries were sent to, in order. *)
Definition targets (evs : list Event) : list Broker.t :=
  omap (λ e, match e with EvConsumerMetadataRequest b _ => Some b | _ => None end) evs.

(** The durations slept, in order. *)
Definition sleeps (evs : list Event) : list Z :=
  omap (λ e, match e with EvSleep s => Some s | _ => None end) evs.

(** The metadata fetches. *)
Definition refreshes (evs : list Event) : list Endpoint :=
  omap (λ e, match e with EvRequestMetadata ep => Some ep | _ => None end) evs.

(** The broker that draw number [n] of the generator selects from the
    broker map of [c]. *)
Definition pick (rng : nat → nat) (n : nat) (c : Cluster) : option Broker.t :=
  let ks := (map_to_list (_brokers c)).*1 in
  id_ ← ks !! (rng n `mod` length ks)%nat;
  _brokers c !! id_.

Definition tick (st : State) : State :=
  mkState (self st) (next_oid st) (events st) (S (draws st)).

Definition say (evs : list Event) (st : State) : State :=
  mkState (self st) (next_oid st) (events st ++ evs) (draws st).

(** The result of the [else] branch for response [res]. *)
Definition lookup_coordinator (c : Cluster) (res : ConsumerMetadataResponse.t)
    : result Broker.t :=
  match _brokers c !! ConsumerMetadataResponse.coordinator_id res with
  | Some coordinator => Return coordinator
  | None => Raise (CoordinatorNotFound (ConsumerMetadataResponse.coordinator_id res))
  end.

(** Unfold the monad's plumbing. *)
Ltac monad :=
  unfold mbind, mret, M_bind, M_ret, get_self, raise, getitem, log, sleep, emit,
    set_brokers, set_topics, alloc; cbn.

(** The three iterations of the retry loop, in closed form. *)
Definition unrolled (net : Z → Broker.t → string → reply ConsumerMetadataResponse.t)
    (g : string) (b : Broker.t) (st : State) : State * result Broker.t :=
  let q := EvConsumerMetadataRequest b g in
  let oops w := EvLog (ErrorDiscoveringOffsetManager w) in
  match net 1%Z b g with
  | Answer r => (say [q] st, lookup_coordinator (self st) r)
  | Failure _ =>
      match net 2%Z b g with
      | Answer r =>
          (say [q; oops 2%Z; EvSleep 2; q] st, lookup_coordinator (self st) r)
      | Failure _ =>
          match net 3%Z b g with
          | Answer r =>
              (say [q; oops 2%Z; EvSleep 2; q; oops 4%Z; EvSleep 4; q] st,
               lookup_coordinator (self st) r)
          | Failure e =>
              (say [q; oops 2%Z; EvSleep 2; q; oops 4%Z; EvSleep 4; q; oops 16%Z] st,
               Raise e)
          end
      end
  end.

(** A list of waits follows the self-exponentiation progression from [w]:
    the first wait is [w] and every further wait is the previous one raised
    to its own power. *)
Fixpoint follows_progression (w : Z) (waits : list Z) : Prop :=
  match waits with
  | [] => True
  | x :: waits' => x = w ∧ follows_progression (w ^ w)%Z waits'
  end.

(** Re-selection per attempt: the [k]-th coordinator query of the step from
    [st] to [st'] goes to the broker that the [k]-th draw made during the
    call selects from the broker map. *)
Definition reselects_per_attempt (rng : nat → nat) (st st' : State) : Prop :=
  ∀ k b, targets (new_events st st') !! k = Some b →
         pick rng (draws st + k) (self st) = Some b.

(** No topic of the map has a name with the reserved prefix. *)
Definition no_internal_topics (c : Cluster) : Prop :=
  ∀ name, is_Some (_topics c !! name) → startswith "__" name = false.

(** The states a cluster object built with [exclude_internal_topics =
    exclude] can be in: after a construction that returned, and after any
    further call of [update()] or [get_offset_manager()], whatever the
    network answers and whether the call returns or raises. *)
Inductive reachable (exclude : bool) : State → Prop :=
| reach_init hosts socket_timeout_ms offsets_channel_socket_timeout_ms
      socket_receive_buffer_bytes net st0 st :
    __init__ hosts socket_timeout_ms offsets_channel_socket_timeout_ms
      socket_receive_buffer_bytes exclude net st0 = (st, Return tt) →
    reachable exclude st
| reach_update net st :
    reachable exclude st → reachable exclude (update net st).1
| reach_get_offset_manager rng net consumer_group st :
    reachable exclude st →
    reachable exclude (get_offset_manager rng net consumer_group st).1.

(** ** Concrete inputs *)

Definition broker1 : Broker.t := Broker.mk 0 1 "10.0.0.1" 9092 30000 10000 65536.
Definition broker2 : Broker.t := Broker.mk 1 2 "10.0.0.2" 9092 30000 10000 65536.

(** A cluster that knows brokers 1 and 2 and the topic "orders". *)
Definition two_brokers : State :=
  mkState (mkCluster "10.0.0.1:9092" 30000 10000
             (<[1%Z := broker1]> (<[2%Z := broker2]> ∅))
             (<["orders" := Topic.mk 2 [TopicMetadata.mk "orders" [0%Z]]]> ∅)
             65536 true)
          3 [] 0.

(** The same cluster built with [exclude_internal_topics=False]. *)
Definition two_brokers_all_topics : State :=
  mkState (mkCluster "10.0.0.1:9092" 30000 10000
             (<[1%Z := broker1]> (<[2%Z := broker2]> ∅))
             (<["orders" := Topic.mk 2 [TopicMetadata.mk "orders" [0%Z]]]> ∅)
             65536 false)
          3 [] 0.

(** A freshly built object, before its first [update()]: no brokers. *)
Definition no_brokers (hosts : string) : State :=
  mkState (mkCluster hosts 30000 10000 ∅ ∅ 65536 true) 0 [] 0.

(** Every coordinator query times out. *)
Definition always_timeout : Z → Broker.t → string → reply ConsumerMetadataResponse.t :=
  λ _ _ _, Failure (RequestError 110).

(** The first two queries time out, the third names coordinator [c]. *)
Definition third_time_lucky (c : Z)
    : Z → Broker.t → string → reply ConsumerMetadataResponse.t :=
  λ k _ _, if (k <? 3)%Z then Failure (RequestError 110)
           else Answer (ConsumerMetadataResponse.mk c).

(** Snapshots: broker 1 where it was, broker 2 gone, broker 3 new, and an
    internal topic next to "orders"; and a snapshot in which broker 1 has
    moved to another host. *)
Definition snapshot_1_3 : MetadataResponse.t :=
  MetadataResponse.mk
    [(1%Z, BrokerMetadata.mk 1 "10.0.0.1" 9092); (3%Z, BrokerMetadata.mk 3 "10.0.0.3" 9092)]
    [("orders", TopicMetadata.mk "orders" [0%Z; 1%Z]);
     ("__consumer_offsets", TopicMetadata.mk "__consumer_offsets" [0%Z])].

Definition snapshot_moved : MetadataResponse.t :=
  MetadataResponse.mk
    [(1%Z, BrokerMetadata.mk 1 "10.0.0.9" 9092); (2%Z, BrokerMetadata.mk 2 "10.0.0.2" 9092)]
    [("orders", TopicMetadata.mk "orders" [0%Z])].

(** A network on which every broker answers the metadata request with [md]. *)
Definition answering (md : MetadataResponse.t) : Endpoint → reply MetadataResponse.t :=
  λ _, Answer md.

(** A cluster constructed with the default settings against that network,
    then refreshed once more. *)
Definition constructed : State :=
  (__init__ "10.0.0.1:9092" (30 * 1000) (10 * 1000) (64 * 1024) true
     (answering snapshot_1_3) (no_brokers "")).1.

Definition refreshed : State := (update (answering snapshot_1_3) constructed).1.

(** ** Further notions *)

(** The outcome of a call that passes a collaborator's answer on. *)
Definition passed_on {A} (r : reply A) : result A :=
  match r with
  | Answer a => Return a
  | Failure e => Raise e
  end.

(** Character [c] does not occur in [s]. *)
Fixpoint lacks (c : Ascii.ascii) (s : string) : Prop :=
  match s with
  | EmptyString => True
  | String a s' => a ≠ c ∧ lacks c s'
  end.

(** The machine once [__init__] has assigned the fields, before it calls
    [self.update()]. *)
Definition assigned (hosts : string)
    (socket_timeout_ms offsets_channel_socket_timeout_ms socket_receive_buffer_bytes : Z)
    (exclude_internal_topics : bool) (st0 : State) : State :=
  (set_self (mkCluster hosts socket_timeout_ms offsets_channel_socket_timeout_ms
               ∅ ∅ socket_receive_buffer_bytes exclude_internal_topics) st0).1.

(** Snapshots: broker 1 moved and broker 2 gone; and no brokers at all. *)
Definition snapshot_moved_alone : MetadataResponse.t :=
  MetadataResponse.mk
    [(1%Z, BrokerMetadata.mk 1 "10.0.0.9" 9092)]
    [("orders", TopicMetadata.mk "orders" [0%Z]); ("payments", TopicMetadata.mk "payments" [0%Z])].

Definition snapshot_no_brokers : MetadataResponse.t :=
  MetadataResponse.mk [] [].

(** A network on which every metadata request fails. *)
Definition unreachable : Endpoint → reply MetadataResponse.t :=
  λ _, Failure (RequestError 111).
(** ** The loops of the two registries *)

Lemma _update_brokers_eq l :
  _update_brokers l
  = (me ← get_self;
     for_each (elements (dom (_brokers me) ∖ list_to_set l.*1 : gset Z)) remove_broker;;
     for_each l add_broker).
Proof. reflexivity. Qed.

Lemma _update_topics_eq l :
  _update_topics l
  = (me ← get_self;
     for_each (elements (dom (_topics me) ∖ list_to_set l.*1 : gset string)) remove_topic;;
     for_each l add_topic).
Proof. reflexivity. Qed.

Lemma for_each_cons {X} (x : X) l body st :
  for_each (x :: l) body st
  = match body x st with
    | (st', Return _) => for_each l body st'
    | (st', Raise e) => (st', Raise e)
    | (st', OutOfFuel) => (st', OutOfFuel)
    end.
Proof. reflexivity. Qed.

Lemma remove_broker_run i b st :
  _brokers (self st) !! i = Some b →
  remove_broker i st
  = (mkState (with_brokers (delete i (_brokers (self st))) (self st)) (next_oid st)
       (events st ++ [EvLog (RemovingBroker b)]) (draws st), Return tt).
Proof. intros Hb. unfold remove_broker. monad. rewrite Hb. done. Qed.

Lemma remove_brokers_loop ids : ∀ st,
  NoDup ids →
  (∀ i, i ∈ ids → is_Some (_brokers (self st) !! i)) →
  ∃ st', for_each ids remove_broker st = (st', Return tt)
    ∧ (∀ k, _brokers (self st') !! k
            = if decide (k ∈ ids) then None else _brokers (self st) !! k)
    ∧ _topics (self st') = _topics (self st)
    ∧ settings (self st') = settings (self st)
    ∧ next_oid st' = next_oid st.
Proof.
  induction ids as [|i ids IH]; intros st Hnd Hin.
  - exists st. split; [done|]. split; [|done].
    intros k. case_decide; [set_solver|done].
  - apply NoDup_cons in Hnd as [Hi Hnd].
    destruct (Hin i) as [b Hb]; [set_solver|].
    rewrite for_each_cons, (remove_broker_run _ _ _ Hb).
    edestruct (IH (mkState (with_brokers (delete i (_brokers (self st))) (self st))
                     (next_oid st) (events st ++ [EvLog (RemovingBroker b)]) (draws st)))
      as (st' & Hrun & Hlk & Ht & Hs & Hn); [done| |].
    { intros j Hj. cbn. rewrite lookup_delete_ne by set_solver. apply Hin. set_solver. }
    exists st'. split; [done|]. split; [|done].
    intros k. rewrite Hlk. cbn.
    destruct (decide (k = i)) as [->|Hne].
    + rewrite lookup_delete_eq.
      rewrite (decide_True (P := i ∈ i :: ids)) by apply list_elem_of_here.
      by case_decide.
    + rewrite lookup_delete_ne by done.
      destruct (decide (k ∈ ids)) as [Hk|Hk].
      * rewrite (decide_True (P := k ∈ i :: ids)); [done|]. by apply list_elem_of_further.
      * rewrite (decide_False (P := k ∈ i :: ids)); [done|]. by intros [?|?]%elem_of_cons.
Qed.

Lemma NoDup_fst_functional {K V} (l : list (K * V)) k v v' :
  NoDup l.*1 → (k, v) ∈ l → (k, v') ∈ l → v = v'.
Proof.
  induction l as [|[k0 v0] l IH]; cbn; intros Hnd H1 H2.
  { by apply elem_of_nil in H1. }
  apply NoDup_cons in Hnd as [Hk0 Hnd].
  apply elem_of_cons in H1 as [H1|H1]; apply elem_of_cons in H2 as [H2|H2];
    simplify_eq.
  - done.
  - exfalso. apply Hk0. apply list_elem_of_fmap. by exists (k0, v').
  - exfalso. apply Hk0. apply list_elem_of_fmap. by exists (k0, v).
  - by apply IH.
Qed.

Lemma same_address_test meta b :
  bool_decide (BrokerMetadata.host meta = Broker.host b)
  && bool_decide (BrokerMetadata.port meta = Broker.port b) = true
  ↔ same_address meta b.
Proof.
  unfold same_address. rewrite andb_true_iff, !bool_decide_eq_true. done.
Qed.

Lemma add_broker_absent id meta st :
  _brokers (self st) !! id = None →
  add_broker (id, meta) st
  = (mkState (with_brokers (<[id := new_broker (self st) (next_oid st) meta]>
                              (_brokers (self st))) (self st))
       (S (next_oid st))
       (events st ++ [EvLog (DiscoveredBroker (BrokerMetadata.host meta)
                                (BrokerMetadata.port meta))])
       (draws st), Return tt).
Proof. intros Hb. unfold add_broker. monad. rewrite Hb. done. Qed.

Lemma add_broker_same id meta b st :
  _brokers (self st) !! id = Some b → same_address meta b →
  add_broker (id, meta) st = (st, Return tt).
Proof.
  intros Hb Hs%same_address_test. unfold add_broker. monad. rewrite Hb, Hs. done.
Qed.

Lemma add_broker_changed id meta b st :
  _brokers (self st) !! id = Some b → ¬ same_address meta b →
  add_broker (id, meta) st = (st, Raise (HostPortChange b)).
Proof.
  intros Hb Hs. unfold add_broker. monad. rewrite Hb.
  destruct (_ && _) eqn:E; [|done]. by apply same_address_test in E.
Qed.

Lemma same_address_dec meta b : same_address meta b ∨ ¬ same_address meta b.
Proof.
  destruct (bool_decide (BrokerMetadata.host meta = Broker.host b)
            && bool_decide (BrokerMetadata.port meta = Broker.port b)) eqn:E.
  - left. by apply same_address_test.
  - right. intros H%same_address_test. congruence.
Qed.

Lemma add_brokers_loop l : ∀ st,
  ∃ st' r, for_each l add_broker st = (st', r)
    ∧ _topics (self st') = _topics (self st)
    ∧ settings (self st') = settings (self st)
    ∧ (∀ k b, _brokers (self st) !! k = Some b → _brokers (self st') !! k = Some b)
    ∧ (∀ k b, _brokers (self st') !! k = Some b →
         _brokers (self st) !! k = Some b
         ∨ (_brokers (self st) !! k = None
            ∧ ∃ meta o, (k, meta) ∈ l ∧ b = new_broker (self st) o meta))
    ∧ match r with
      | Return _ =>
          ∀ id meta, (id, meta) ∈ l →
            ∃ b, _brokers (self st') !! id = Some b ∧ same_address meta b
      | Raise e =>
          ∃ id meta b, (id, meta) ∈ l ∧ _brokers (self st') !! id = Some b
                       ∧ ¬ same_address meta b ∧ e = HostPortChange b
      | OutOfFuel => False
      end.
Proof.
  induction l as [|[id meta] l IH]; intros st.
  { exists st, (Return tt). repeat split; try done; [by left | ].
    intros ?? H. by apply elem_of_nil in H. }
  rewrite for_each_cons.
  destruct (_brokers (self st) !! id) as [b|] eqn:Hb.
  - destruct (same_address_dec meta b) as [Hs|Hs].
    + rewrite (add_broker_same _ _ _ _ Hb Hs).
      destruct (IH st) as (st' & r & Hrun & Ht & Hse & Hmono & Horig & Hres).
      exists st', r. split; [done|]. split; [done|]. split; [done|]. split; [done|].
      split.
      * intros k b' Hk. destruct (Horig k b' Hk) as [?|(? & meta' & o & ? & ?)];
          [by left|right]. split; [done|]. exists meta', o. split; [by right|done].
      * destruct r as [[]|e|]; [| |done].
        -- intros id' meta' [[= -> ->]|Hin]%elem_of_cons; [|by apply Hres].
           exists b. split; [by apply Hmono|done].
        -- destruct Hres as (id' & meta' & b' & ? & ? & ? & ?).
           exists id', meta', b'. split; [by right|done].
    + rewrite (add_broker_changed _ _ _ _ Hb Hs).
      exists st, (Raise (HostPortChange b)). repeat split; try done; [by left|].
      exists id, meta, b. split; [by left|done].
  - rewrite (add_broker_absent _ _ _ Hb).
    set (st1 := mkState _ _ _ _).
    destruct (IH st1) as (st' & r & Hrun & Ht & Hse & Hmono & Horig & Hres).
    exists st', r. split; [done|]. split; [done|]. split; [done|]. split; [|split].
    + intros k b Hk. apply Hmono. cbn.
      rewrite lookup_insert_ne; [done|]. intros ->. congruence.
    + intros k b Hk. destruct (Horig k b Hk) as [H1|(H1 & meta' & o & Hin & ->)];
        cbn in H1.
      * destruct (decide (id = k)) as [->|Hne].
        -- rewrite lookup_insert_eq in H1. injection H1 as <-. right.
           split; [done|]. exists meta, (next_oid st). split; [by left|done].
        -- rewrite lookup_insert_ne in H1 by done. by left.
      * right. destruct (decide (id = k)) as [->|Hne].
        { by rewrite lookup_insert_eq in H1. }
        rewrite lookup_insert_ne in H1 by done. split; [done|].
        exists meta', o. split; [by right|done].
    + destruct r as [[]|e|]; [| |done].
      * intros id' meta' [[= -> ->]|Hin]%elem_of_cons; [|by apply Hres].
        exists (new_broker (self st) (next_oid st) meta). split; [|done].
        apply Hmono. cbn. by rewrite lookup_insert_eq.
      * destruct Hres as (id' & meta' & b' & ? & ? & ? & ?).
        exists id', meta', b'. split; [by right|done].
Qed.

Lemma new_broker_settings c c' o meta :
  settings c' = settings c → new_broker c' o meta = new_broker c o meta.
Proof. unfold settings, new_broker. intros [= ? ? ? ? ?]. congruence. Qed.

Lemma elem_of_fst {K V} `{EqDecision K} (l : list (K * V)) k v :
  (k, v) ∈ l → k ∈ l.*1.
Proof. intros H. apply list_elem_of_fmap. by exists (k, v). Qed.

Lemma bind_get_self {A} (f : Cluster → M A) st : (me ← get_self; f me) st = f (self st) st.
Proof. reflexivity. Qed.

Lemma bind_seq {A} (m : M unit) (k : M A) st :
  (m;; k) st
  = match m st with
    | (st', Return _) => k st'
    | (st', Raise e) => (st', Raise e)
    | (st', OutOfFuel) => (st', OutOfFuel)
    end.
Proof. reflexivity. Qed.

(** What [_update_brokers] does to the cluster, whether it returns or raises. *)
Lemma _update_brokers_spec l st :
  ∃ st' r, _update_brokers l st = (st', r)
    ∧ _topics (self st') = _topics (self st)
    ∧ settings (self st') = settings (self st)
    ∧ (∀ k b, _brokers (self st) !! k = Some b → k ∈ l.*1 →
              _brokers (self st') !! k = Some b)
    ∧ (∀ k, k ∉ l.*1 → _brokers (self st') !! k = None)
    ∧ (∀ k b, _brokers (self st') !! k = Some b →
         _brokers (self st) !! k = Some b
         ∨ (_brokers (self st) !! k = None
            ∧ ∃ meta o, (k, meta) ∈ l ∧ b = new_broker (self st) o meta))
    ∧ match r with
      | Return _ =>
          ∀ id meta, (id, meta) ∈ l →
            ∃ b, _brokers (self st') !! id = Some b ∧ same_address meta b
      | Raise e =>
          ∃ id meta b, (id, meta) ∈ l ∧ _brokers (self st') !! id = Some b
                       ∧ ¬ same_address meta b ∧ e = HostPortChange b
      | OutOfFuel => False
      end.
Proof.
  rewrite _update_brokers_eq, bind_get_self, bind_seq.
  set (removed := elements _).
  assert (Hrem : ∀ k, k ∈ removed ↔ is_Some (_brokers (self st) !! k) ∧ k ∉ l.*1).
  { intros k. unfold removed.
    rewrite elem_of_elements, elem_of_difference, elem_of_dom, elem_of_list_to_set.
    done. }
  destruct (remove_brokers_loop removed st) as (st1 & -> & Hlk1 & Ht1 & Hs1 & Hn1).
  { apply NoDup_elements. }
  { intros i Hi. by apply Hrem in Hi as [? ?]. }
  destruct (add_brokers_loop l st1) as (st' & r & -> & Ht & Hse & Hmono & Horig & Hres).
  exists st', r. split; [done|]. split; [congruence|]. split; [congruence|].
  split; [|split; [|split]].
  - intros k b Hk Hin. apply Hmono. rewrite Hlk1.
    rewrite decide_False; [done|]. intros [_ ?]%Hrem. done.
  - intros k Hk. destruct (_brokers (self st') !! k) as [b|] eqn:Hb; [|done].
    exfalso. destruct (Horig k b Hb) as [H1|(_ & meta & _ & Hin & _)].
    + rewrite Hlk1 in H1. case_decide as Hd; [done|].
      apply Hd, Hrem. split; [by eexists|done].
    + by apply elem_of_fst in Hin.
  - intros k b Hb. destruct (Horig k b Hb) as [H1|(H1 & meta & o & Hin & ->)].
    + left. rewrite Hlk1 in H1. by case_decide.
    + right. rewrite Hlk1 in H1. split.
      * case_decide as Hd; [|done]. apply Hrem in Hd as [_ Hd].
        by apply elem_of_fst in Hin.
      * exists meta, o. split; [done|]. by apply new_broker_settings.
  - done.
Qed.

(** *** Topics *)

Lemma remove_topic_run name tp st :
  _topics (self st) !! name = Some tp →
  remove_topic name st
  = (mkState (with_topics (delete name (_topics (self st))) (self st)) (next_oid st)
       (events st ++ [EvLog (RemovingTopic tp)]) (draws st), Return tt).
Proof. intros Hb. unfold remove_topic. monad. rewrite Hb. done. Qed.

Lemma remove_topics_loop names : ∀ st,
  NoDup names →
  (∀ n, n ∈ names → is_Some (_topics (self st) !! n)) →
  ∃ st', for_each names remove_topic st = (st', Return tt)
    ∧ (∀ k, _topics (self st') !! k
            = if decide (k ∈ names) then None else _topics (self st) !! k)
    ∧ _brokers (self st') = _brokers (self st)
    ∧ settings (self st') = settings (self st)
    ∧ next_oid st' = next_oid st.
Proof.
  induction names as [|n names IH]; intros st Hnd Hin.
  - exists st. split; [done|]. split; [|done].
    intros k. case_decide as Hk; [by apply elem_of_nil in Hk|done].
  - apply NoDup_cons in Hnd as [Hn Hnd].
    destruct (Hin n) as [tp Htp]; [apply list_elem_of_here|].
    rewrite for_each_cons, (remove_topic_run _ _ _ Htp).
    set (st1 := mkState _ _ _ _).
    destruct (IH st1) as (st' & Hrun & Hlk & Hb & Hs & Ho); [done| |].
    { intros j Hj. cbn. rewrite lookup_delete_ne by (by intros ->).
      apply Hin. by apply list_elem_of_further. }
    exists st'. split; [done|]. split; [|done].
    intros k. rewrite Hlk. cbn.
    destruct (decide (k = n)) as [->|Hne].
    + rewrite lookup_delete_eq.
      rewrite (decide_True (P := n ∈ n :: names)) by apply list_elem_of_here.
      by case_decide.
    + rewrite lookup_delete_ne by done.
      destruct (decide (k ∈ names)) as [Hk|Hk].
      * rewrite (decide_True (P := k ∈ n :: names)); [done|].
        by apply list_elem_of_further.
      * rewrite (decide_False (P := k ∈ n :: names)); [done|].
        by intros [?|?]%elem_of_cons.
Qed.

Lemma _should_exclude_topic_settings c c' name :
  settings c' = settings c →
  _should_exclude_topic c' name = _should_exclude_topic c name.
Proof. unfold settings, _should_exclude_topic. intros [= ? ? ? ? ->]. done. Qed.

Lemma add_topic_excluded name meta st :
  _should_exclude_topic (self st) name = true →
  add_topic (name, meta) st = (st, Return tt).
Proof. intros He. unfold add_topic. monad. by rewrite He. Qed.

Lemma add_topic_absent name meta st :
  _should_exclude_topic (self st) name = false →
  _topics (self st) !! name = None →
  add_topic (name, meta) st
  = (mkState (with_topics (<[name := Topic.mk (next_oid st) [meta]]> (_topics (self st)))
                (self st))
       (S (next_oid st))
       (events st ++ [EvLog (DiscoveredTopic (Topic.mk (next_oid st) [meta]))])
       (draws st), Return tt).
Proof. intros He Hn. unfold add_topic. monad. by rewrite He, Hn. Qed.

Lemma add_topic_present name meta tp st :
  _should_exclude_topic (self st) name = false →
  _topics (self st) !! name = Some tp →
  add_topic (name, meta) st
  = (mkState (with_topics (<[name := Topic.update meta tp]> (_topics (self st))) (self st))
       (next_oid st) (events st) (draws st), Return tt).
Proof. intros He Hn. unfold add_topic. monad. by rewrite He, Hn. Qed.

(** One iteration of the second loop of [_update_topics]. *)
Lemma add_topic_step name meta st :
  ∃ st1, add_topic (name, meta) st = (st1, Return tt)
    ∧ _brokers (self st1) = _brokers (self st)
    ∧ settings (self st1) = settings (self st)
    ∧ (∀ k, k ≠ name → _topics (self st1) !! k = _topics (self st) !! k)
    ∧ (if _should_exclude_topic (self st) name
       then _topics (self st1) !! name = _topics (self st) !! name
       else match _topics (self st) !! name with
            | Some tp => _topics (self st1) !! name = Some (Topic.update meta tp)
            | None => _topics (self st1) !! name = Some (Topic.mk (next_oid st) [meta])
            end).
Proof.
  destruct (_should_exclude_topic (self st) name) eqn:He.
  { rewrite (add_topic_excluded _ _ _ He). by exists st. }
  destruct (_topics (self st) !! name) as [tp|] eqn:Hn.
  - rewrite (add_topic_present _ _ _ _ He Hn). eexists. split; [done|]. cbn.
    split; [done|]. split; [done|]. split; [|by rewrite lookup_insert_eq].
    intros k Hk. by rewrite lookup_insert_ne.
  - rewrite (add_topic_absent _ _ _ He Hn). eexists. split; [done|]. cbn.
    split; [done|]. split; [done|]. split; [|by rewrite lookup_insert_eq].
    intros k Hk. by rewrite lookup_insert_ne.
Qed.

Lemma add_topics_loop l : ∀ st,
  ∃ st', for_each l add_topic st = (st', Return tt)
    ∧ _brokers (self st') = _brokers (self st)
    ∧ settings (self st') = settings (self st)
    ∧ (∀ name tp, _topics (self st) !! name = Some tp →
         ∃ tp', _topics (self st') !! name = Some tp' ∧ Topic.oid tp' = Topic.oid tp)
    ∧ (∀ name, is_Some (_topics (self st') !! name) →
         is_Some (_topics (self st) !! name)
         ∨ (name ∈ l.*1 ∧ _should_exclude_topic (self st) name = false))
    ∧ (∀ name, name ∈ l.*1 → _should_exclude_topic (self st) name = false →
         is_Some (_topics (self st') !! name))
    ∧ (∀ name, name ∉ l.*1 ∨ _should_exclude_topic (self st) name = true →
         _topics (self st') !! name = _topics (self st) !! name).
Proof.
  induction l as [|[n m] l IH]; intros st.
  { exists st. split; [done|]. split; [done|]. split; [done|].
    split; [by eauto|]. split; [by left|]. split; [|done].
    intros name Hin. by apply elem_of_nil in Hin. }
  rewrite for_each_cons.
  destruct (add_topic_step n m st) as (st1 & -> & Hb1 & Hs1 & Hne1 & Hn1).
  destruct (IH st1) as (st' & Hrun & Hb & Hs & Hkeep & Horig & Hin & Hsame).
  pose proof (λ name, _should_exclude_topic_settings _ _ name Hs1) as Hex.
  exists st'. split; [done|]. split; [congruence|]. split; [congruence|].
  split; [|split; [|split]].
  - intros name tp Htp. destruct (decide (name = n)) as [->|Hne].
    + destruct (_should_exclude_topic (self st) n).
      * apply Hkeep. congruence.
      * rewrite Htp in Hn1. destruct (Hkeep _ _ Hn1) as (tp' & ? & ?). by exists tp'.
    + apply Hkeep. by rewrite Hne1.
  - intros name Hsome. destruct (Horig name Hsome) as [H1|[H1 H2]].
    + destruct (decide (name = n)) as [->|Hne]; [|left; by rewrite <- Hne1].
      destruct (_should_exclude_topic (self st) n) eqn:He.
      * left. congruence.
      * right. split; [apply list_elem_of_here|done].
    + right. split; [by apply list_elem_of_further|by rewrite <- Hex].
  - intros name [->|Hl]%elem_of_cons He.
    + cbn in He. rewrite He in Hn1.
      destruct (_topics (self st) !! n) as [tp|];
        destruct (Hkeep _ _ Hn1) as (tp' & ? & ?); by eexists.
    + apply Hin; [done|by rewrite Hex].
  - intros name Hcase.
    assert (_topics (self st1) !! name = _topics (self st) !! name) as <-.
    { destruct (decide (name = n)) as [->|Hne]; [|by apply Hne1].
      destruct Hcase as [Hnot|He].
      - exfalso. apply Hnot. apply list_elem_of_here.
      - by rewrite He in Hn1. }
    apply Hsame. destruct Hcase as [Hnot|He]; [left|right; by rewrite Hex].
    intros ?. apply Hnot. by apply list_elem_of_further.
Qed.

(** With distinct keys, what becomes of each name of the snapshot. *)
Lemma add_topics_loop_exact l : ∀ st name meta,
  NoDup l.*1 → (name, meta) ∈ l →
  _should_exclude_topic (self st) name = false →
  match _topics (self st) !! name with
  | Some tp =>
      _topics (self (for_each l add_topic st).1) !! name = Some (Topic.update meta tp)
  | None =>
      ∃ o, (next_oid st ≤ o)%nat
           ∧ _topics (self (for_each l add_topic st).1) !! name = Some (Topic.mk o [meta])
  end.
Proof.
  induction l as [|[n m] l IH]; intros st name meta Hnd Hin He.
  { by apply elem_of_nil in Hin. }
  cbn in Hnd. apply NoDup_cons in Hnd as [Hn Hnd].
  rewrite for_each_cons.
  destruct (add_topic_step n m st) as (st1 & Hrun1 & Hb1 & Hs1 & Hne1 & Hn1).
  rewrite Hrun1.
  apply elem_of_cons in Hin as [[= -> ->]|Hin].
  - destruct (add_topics_loop l st1) as (st' & -> & _ & _ & _ & _ & _ & Hsame).
    cbn [fst]. rewrite Hsame by (by left). rewrite He in Hn1.
    destruct (_topics (self st) !! n); [done|]. by exists (next_oid st).
  - assert (name ≠ n) as Hne by (intros ->; by apply elem_of_fst in Hin).
    specialize (IH st1 name meta Hnd Hin).
    rewrite (_should_exclude_topic_settings _ _ _ Hs1), (Hne1 _ Hne) in IH.
    specialize (IH He).
    destruct (_topics (self st) !! name) as [tp|]; [done|].
    destruct IH as (o & Ho & ?). exists o. split; [|done].
    assert (next_oid st ≤ next_oid st1)%nat; [|lia].
    clear -Hrun1. unfold add_topic in Hrun1. revert Hrun1. monad.
    destruct (_should_exclude_topic _ _); cbn; [by intros [= <-]|].
    destruct (_ !! _); cbn; intros [= <-]; cbn; lia.
Qed.

(** What [_update_topics] does to the cluster; it always returns. *)
Lemma _update_topics_spec l st :
  ∃ st', _update_topics l st = (st', Return tt)
    ∧ _brokers (self st') = _brokers (self st)
    ∧ settings (self st') = settings (self st)
    ∧ (∀ name, name ∉ l.*1 → _topics (self st') !! name = None)
    ∧ (∀ name tp, _topics (self st) !! name = Some tp → name ∈ l.*1 →
         ∃ tp', _topics (self st') !! name = Some tp' ∧ Topic.oid tp' = Topic.oid tp)
    ∧ (∀ name, is_Some (_topics (self st') !! name) →
         is_Some (_topics (self st) !! name)
         ∨ _should_exclude_topic (self st) name = false)
    ∧ (∀ name, name ∈ l.*1 → _should_exclude_topic (self st) name = false →
         is_Some (_topics (self st') !! name))
    ∧ (∀ name, name ∈ l.*1 → _should_exclude_topic (self st) name = true →
         _topics (self st') !! name = _topics (self st) !! name)
    ∧ (NoDup l.*1 → ∀ name meta, (name, meta) ∈ l →
         _should_exclude_topic (self st) name = false →
         match _topics (self st) !! name with
         | Some tp => _topics (self st') !! name = Some (Topic.update meta tp)
         | None => ∃ o, (next_oid st ≤ o)%nat
                        ∧ _topics (self st') !! name = Some (Topic.mk o [meta])
         end).
Proof.
  rewrite _update_topics_eq, bind_get_self, bind_seq.
  set (removed := elements _).
  assert (Hrem : ∀ k, k ∈ removed ↔ is_Some (_topics (self st) !! k) ∧ k ∉ l.*1).
  { intros k. unfold removed.
    rewrite elem_of_elements, elem_of_difference, elem_of_dom, elem_of_list_to_set.
    done. }
  destruct (remove_topics_loop removed st) as (st1 & -> & Hlk1 & Hb1 & Hs1 & Ho1).
  { apply NoDup_elements. }
  { intros i Hi. by apply Hrem in Hi as [? ?]. }
  assert (Hin1 : ∀ k, k ∈ l.*1 → _topics (self st1) !! k = _topics (self st) !! k).
  { intros k Hk. rewrite Hlk1. rewrite decide_False; [done|]. by intros [_ ?]%Hrem. }
  assert (Hout1 : ∀ k, k ∉ l.*1 → _topics (self st1) !! k = None).
  { intros k Hk. rewrite Hlk1. case_decide as Hd; [done|].
    destruct (_topics (self st) !! k) eqn:E; [|done].
    exfalso. apply Hd, Hrem. split; [by eexists|done]. }
  pose proof (λ name, _should_exclude_topic_settings _ _ name Hs1) as Hex.
  pose proof (add_topics_loop_exact l st1) as Hexact.
  destruct (add_topics_loop l st1) as (st' & Hrun & Hb & Hs & Hkeep & Horig & Hin & Hsame).
  rewrite Hrun in Hexact. cbn [fst] in Hexact. rewrite Hrun.
  exists st'. split; [done|]. split; [congruence|]. split; [congruence|].
  split; [|split; [|split; [|split; [|split]]]].
  - intros name Hn. rewrite Hsame by (by left). by apply Hout1.
  - intros name tp Htp Hn. apply Hkeep. by rewrite Hin1.
  - intros name Hsome. destruct (Horig name Hsome) as [H1|[H1 H2]].
    + left. destruct (decide (name ∈ l.*1)) as [Hn|Hn].
      * by rewrite <- Hin1.
      * rewrite Hout1 in H1 by done. by destruct H1.
    + right. by rewrite <- Hex.
  - intros name Hn He. apply Hin; [done|by rewrite Hex].
  - intros name Hn He. rewrite Hsame by (right; by rewrite Hex). by apply Hin1.
  - intros Hnd name meta Hnm He.
    specialize (Hexact name meta Hnd Hnm). rewrite Hex in Hexact.
    specialize (Hexact He). rewrite Hin1 in Hexact by (by eapply elem_of_fst).
    destruct (_topics (self st) !! name); [done|].
    destruct Hexact as (o & ? & ?). exists o. split; [lia|done].
Qed.

(** *** One refresh cycle *)

Lemma update_unfold net st :
  update net st
  = match _get_metadata net st with
    | (st0, Return metadata) =>
        match _update_brokers (MetadataResponse.brokers metadata) st0 with
        | (st1, Return _) => _update_topics (MetadataResponse.topics metadata) st1
        | (st1, Raise e) => (st1, Raise e)
        | (st1, OutOfFuel) => (st1, OutOfFuel)
        end
    | (st0, Raise e) => (st0, Raise e)
    | (st0, OutOfFuel) => (st0, OutOfFuel)
    end.
Proof. reflexivity. Qed.

(** ** The metadata fetch *)

Lemma split_nonempty sep s : split sep s ≠ [].
Proof.
  destruct s as [|c s]; cbn; [done|].
  destruct (Ascii.eqb c sep); [done|]. by destruct (split sep s).
Qed.

(** The candidate list is never empty: a non-empty dict has values, and
    [str.split] returns at least one string. *)
Lemma candidates_nonempty c : candidates c ≠ [].
Proof.
  unfold candidates. destruct (Nat.eqb_spec (size (_brokers c)) 0) as [Hz|Hnz]; cbn.
  - pose proof (split_nonempty ","%char (_seed_hosts c)). by destruct (split _ _).
  - destruct (map_to_list (_brokers c)) as [|kv l] eqn:Hl; [|done].
    apply map_to_list_empty_iff in Hl. rewrite Hl, map_size_empty in Hnz. done.
Qed.

(** Only the first candidate is ever tried. *)
Lemma _get_metadata_run net st :
  ∃ x rest, candidates (self st) = x :: rest
    ∧ _get_metadata net st
      = match x with
        | CBroker b =>
            match net (Known b) with
            | Answer md => (say [EvRequestMetadata (Known b)] st, Return md)
            | Failure e =>
                (say [EvRequestMetadata (Known b); EvLog (UnableToConnectTo x)] st,
                 Raise e)
            end
        | CString s =>
            match split ":"%char s with
            | [h; p] =>
                match net (Temp h p) with
                | Answer md => (say [EvRequestMetadata (Temp h p)] st, Return md)
                | Failure e =>
                    (say [EvRequestMetadata (Temp h p); EvLog (UnableToConnectTo x)] st,
                     Raise e)
                end
            | _ => (say [EvLog (UnableToConnectTo x)] st, Raise ValueError)
            end
        end.
Proof.
  destruct (candidates (self st)) as [|x rest] eqn:Hc.
  { by apply candidates_nonempty in Hc. }
  exists x, rest. split; [done|].
  unfold _get_metadata. rewrite bind_get_self, Hc. cbn [for_return].
  unfold try_except, request_metadata, unpack2, say. monad.
  destruct x as [b|s].
  - destruct (net (Known b)); cbn; by rewrite <- ?app_assoc.
  - destruct (split ":"%char s) as [|h [|p [|? ?]]]; cbn; try done.
    destruct (net (Temp h p)); cbn; by rewrite <- ?app_assoc.
Qed.

(** The fetch reads the cluster and allocates nothing. *)
Lemma _get_metadata_frame net st :
  self (_get_metadata net st).1 = self st
  ∧ next_oid (_get_metadata net st).1 = next_oid st.
Proof.
  destruct (_get_metadata_run net st) as (x & rest & _ & ->).
  destruct x as [b|s].
  - by destruct (net (Known b)).
  - destruct (split ":"%char s) as [|h [|p [|? ?]]]; try done.
    by destruct (net (Temp h p)).
Qed.

(** The [raise] after the loop is dead code: unless the network itself
    answers with that exception, the fetch never raises it. *)
Lemma _get_metadata_never_unable_to_connect net st :
  (∀ ep, net ep ≠ Failure UnableToConnect) →
  (_get_metadata net st).2 ≠ Raise UnableToConnect.
Proof.
  intros Hnet. destruct (_get_metadata_run net st) as (x & rest & _ & ->).
  destruct x as [b|s].
  - pose proof (Hnet (Known b)). destruct (net (Known b)); cbn; congruence.
  - destruct (split ":"%char s) as [|h [|p [|? ?]]]; try done.
    pose proof (Hnet (Temp h p)). destruct (net (Temp h p)); cbn; congruence.
Qed.

(** C9. Nothing to fetch from: no broker is known and the seed list is the
    empty string.  The candidate list is then [['']], not [[]]; unpacking
    [''.split(':')] raises [ValueError], which is logged and re-raised, and
    the exception for an unreachable cluster is not raised.  No request is
    sent. *)
Theorem _get_metadata_empty_seed net :
  _get_metadata net (no_brokers "")
  = (say [EvLog (UnableToConnectTo (CString ""))] (no_brokers ""), Raise ValueError)
  ∧ candidates (self (no_brokers "")) = [CString ""]
  ∧ (_get_metadata net (no_brokers "")).2 ≠ Raise UnableToConnect.
Proof. split; [reflexivity|]. split; [reflexivity|]. discriminate. Qed.

Lemma pick_is_Some rng n c : _brokers c ≠ ∅ → is_Some (pick rng n c).
Proof.
  intros Hne. unfold pick. cbn.
  destruct (map_to_list (_brokers c)) as [|kv l] eqn:Hl.
  { apply map_to_list_empty_iff in Hl. done. }
  assert (Hlen : (rng n `mod` length (kv :: l).*1 < length (kv :: l).*1)%nat).
  { apply Nat.mod_upper_bound. done. }
  apply lookup_lt_is_Some_2 in Hlen as [k Hk]. rewrite Hk. cbn.
  apply list_elem_of_lookup_2 in Hk.
  apply list_elem_of_fmap in Hk as [[k' v] [-> Hkv]].
  rewrite <- Hl in Hkv. apply elem_of_map_to_list in Hkv. cbn. by rewrite Hkv.
Qed.

Lemma pick_empty rng n c : _brokers c = ∅ → pick rng n c = None.
Proof. intros He. unfold pick. by rewrite He, map_to_list_empty. Qed.

Lemma gom_entry fuel rng net g st b :
  pick rng (draws st) (self st) = Some b →
  get_offset_manager_fuel fuel rng net g st
  = get_offset_manager_loop fuel net g b 2 0 (tick st).
Proof.
  unfold pick, get_offset_manager_fuel, random_choice. monad.
  destruct (_ !! _) as [k|] eqn:Hk; [|done]. cbn.
  intros ->. done.
Qed.

Lemma gom_empty fuel rng net g st :
  _brokers (self st) = ∅ →
  get_offset_manager_fuel fuel rng net g st = (tick st, Raise IndexError).
Proof.
  intros He. unfold get_offset_manager_fuel, random_choice. monad.
  rewrite He, map_to_list_empty. done.
Qed.

Lemma say_say evs evs' st : say evs' (say evs st) = say (evs ++ evs') st.
Proof. unfold say. cbn. by rewrite <- app_assoc. Qed.

Lemma loop_step fuel net g b backoff retries st :
  get_offset_manager_loop (S fuel) net g b backoff retries st =
  let q := EvConsumerMetadataRequest b g in
  let oops := EvLog (ErrorDiscoveringOffsetManager backoff) in
  match net (retries + 1)%Z b g with
  | Answer r => (say [q] st, lookup_coordinator (self st) r)
  | Failure e =>
      if (retries + 1 <? MAX_RETRIES)%Z
      then get_offset_manager_loop fuel net g b (backoff ^ 2)%Z (retries + 1)%Z
             (say [q; oops; EvSleep backoff] st)
      else (say [q; oops] st, Raise e)
  end.
Proof.
  cbn [get_offset_manager_loop]. unfold attempt, lookup_coordinator, say. monad.
  destruct (net _ b g) as [r|e]; cbn.
  { by destruct (_ !! _). }
  destruct (_ <? _)%Z; cbn; by rewrite <- !app_assoc.
Qed.

Lemma loop_unrolled f net g b st :
  get_offset_manager_loop (3 + f) net g b 2 0 st = unrolled net g b st.
Proof.
  unfold unrolled. change (3 + f)%nat with (S (S (S f))).
  rewrite loop_step. change (0 + 1)%Z with 1%Z. cbn zeta.
  destruct (net 1%Z b g) as [r1|e1]; [done|].
  change (1 <? MAX_RETRIES)%Z with true. cbn match.
  rewrite loop_step. change (1 + 1)%Z with 2%Z. change (2 ^ 2)%Z with 4%Z. cbn zeta.
  rewrite !say_say. cbn [app].
  destruct (net 2%Z b g) as [r2|e2]; [done|].
  change (2 <? MAX_RETRIES)%Z with true. cbn match.
  rewrite loop_step. change (2 + 1)%Z with 3%Z. change (4 ^ 2)%Z with 16%Z. cbn zeta.
  rewrite !say_say. cbn [app].
  by destruct (net 3%Z b g) as [r3|e3].
Qed.

(** Three units of fuel are enough: more fuel changes nothing, and the
    call never runs out. *)
Lemma get_offset_manager_fuel_irrelevant f rng net g st :
  get_offset_manager_fuel (3 + f) rng net g st = get_offset_manager rng net g st
  ∧ (get_offset_manager rng net g st).2 ≠ OutOfFuel.
Proof.
  unfold get_offset_manager. change (Z.to_nat MAX_RETRIES) with (3 + 0)%nat.
  destruct (pick rng (draws st) (self st)) as [b|] eqn:Hp.
  - rewrite !(gom_entry _ _ _ _ _ _ Hp), !loop_unrolled. split; [done|].
    unfold unrolled, lookup_coordinator.
    repeat (destruct (net _ b g)); cbn; try done; by destruct (_ !! _).
  - assert (He : _brokers (self st) = ∅).
    { destruct (decide (_brokers (self st) = ∅)) as [|Hne]; [done|].
      apply (pick_is_Some rng (draws st)) in Hne as [? ?]. congruence. }
    by rewrite !gom_empty.
Qed.

Lemma new_events_say evs st : new_events st (say evs (tick st)) = evs.
Proof. unfold new_events. cbn. by rewrite drop_app_length. Qed.


(** Project a finished run and read off its effects. *)
Ltac observe :=
  cbn [fst snd]; unfold lookup_coordinator;
  rewrite ?new_events_say; cbn [fst snd self say tick].

Lemma new_events_tick st : new_events st (tick st) = [].
Proof. unfold new_events. cbn. apply drop_all. Qed.

Lemma gom_nonempty rng net g st b :
  pick rng (draws st) (self st) = Some b →
  get_offset_manager rng net g st = unrolled net g b (tick st).
Proof.
  intros Hp. unfold get_offset_manager. change (Z.to_nat MAX_RETRIES) with (3 + 0)%nat.
  by rewrite (gom_entry _ _ _ _ _ _ Hp), loop_unrolled.
Qed.

(** ** The claims about [get_offset_manager] *)

(** C5. Bounded retry: when the broker map is not empty and every
    coordinator query fails, [get_offset_manager] sends exactly three
    queries (all to the broker [b] it chose), sleeps after the first and
    after the second (2 s, then 4 s), and raises the exception of the third
    query.  The cluster object is not touched. *)
Theorem get_offset_manager_bounded_retry st rng net g :
  _brokers (self st) ≠ ∅ →
  (∀ k b, failed (net k b g)) →
  ∃ st' b e,
    get_offset_manager rng net g st = (st', Raise e)
    ∧ net MAX_RETRIES b g = Failure e
    ∧ new_events st st'
      = [EvConsumerMetadataRequest b g;
         EvLog (ErrorDiscoveringOffsetManager 2); EvSleep 2;
         EvConsumerMetadataRequest b g;
         EvLog (ErrorDiscoveringOffsetManager 4); EvSleep 4;
         EvConsumerMetadataRequest b g;
         EvLog (ErrorDiscoveringOffsetManager 16)]
    ∧ length (targets (new_events st st')) = 3
    ∧ length (sleeps (new_events st st')) = 2
    ∧ self st' = self st.
Proof.
  intros Hne Hfail.
  destruct (pick_is_Some rng (draws st) _ Hne) as [b Hb].
  rewrite (gom_nonempty _ _ _ _ _ Hb). unfold unrolled.
  pose proof (Hfail 1%Z b) as H1. pose proof (Hfail 2%Z b) as H2.
  pose proof (Hfail 3%Z b) as H3.
  destruct (net 1%Z b g) as [|e1]; [done|]. destruct (net 2%Z b g) as [|e2]; [done|].
  destruct (net 3%Z b g) as [|e3] eqn:E3; [done|].
  eexists _, b, e3. split; [reflexivity|]. split; [exact E3|].
  rewrite new_events_say. done.
Qed.

Lemma get_offset_manager_bounded_retry_witness :
  ∃ st' b e,
    get_offset_manager (λ _, 0) always_timeout "g1" two_brokers = (st', Raise e)
    ∧ always_timeout MAX_RETRIES b "g1" = Failure e
    ∧ new_events two_brokers st'
      = [EvConsumerMetadataRequest b "g1";
         EvLog (ErrorDiscoveringOffsetManager 2); EvSleep 2;
         EvConsumerMetadataRequest b "g1";
         EvLog (ErrorDiscoveringOffsetManager 4); EvSleep 4;
         EvConsumerMetadataRequest b "g1";
         EvLog (ErrorDiscoveringOffsetManager 16)]
    ∧ length (targets (new_events two_brokers st')) = 3
    ∧ length (sleeps (new_events two_brokers st')) = 2
    ∧ self st' = self two_brokers.
Proof.
  apply (get_offset_manager_bounded_retry two_brokers (λ _, 0) always_timeout "g1").
  - apply insert_non_empty.
  - intros k b. exact I.
Defined.

(** The waits that are logged go 2, 4, 16: the loop squares [backoff]
    ([backoff ** 2]).  Squaring and self-exponentiation agree at 2 and part
    ways at 4, but the third value is only logged, never slept. *)
Lemma logged_backoff_values rng g :
  omap (λ e, match e with
             | EvLog (ErrorDiscoveringOffsetManager w) => Some w
             | _ => None
             end)
       (new_events two_brokers (get_offset_manager rng always_timeout g two_brokers).1)
  = [2; 4; 16]%Z
  ∧ (4 ^ 4)%Z ≠ 16%Z.
Proof.
  destruct (pick_is_Some rng (draws two_brokers) (self two_brokers)) as [b Hb].
  { apply insert_non_empty. }
  rewrite (gom_nonempty _ _ _ _ _ Hb). unfold unrolled, always_timeout.
  cbn [fst]. rewrite new_events_say. done.
Qed.

(** C6. Backoff progression: in every run of [get_offset_manager] the
    durations slept, in order, start at the base wait 2 and each further one
    is the previous one raised to its own power; in a run whose first two
    queries fail they are exactly 2 and 2^2. *)
Theorem get_offset_manager_backoff_progression st rng net g :
  let st' := (get_offset_manager rng net g st).1 in
  follows_progression 2 (sleeps (new_events st st'))
  ∧ (∀ b, pick rng (draws st) (self st) = Some b →
          failed (net 1%Z b g) → failed (net 2%Z b g) →
          sleeps (new_events st st') = [2; 2 ^ 2]%Z).
Proof.
  cbn zeta. destruct (pick rng (draws st) (self st)) as [b|] eqn:Hp.
  - rewrite (gom_nonempty _ _ _ _ _ Hp). unfold unrolled. split.
    + destruct (net 1%Z b g); [by observe|].
      destruct (net 2%Z b g); [by observe|].
      destruct (net 3%Z b g); by observe.
    + intros b' [= <-] H1 H2.
      destruct (net 1%Z b g); [done|]. destruct (net 2%Z b g); [done|].
      destruct (net 3%Z b g); by observe.
  - assert (He : _brokers (self st) = ∅).
    { destruct (decide (_brokers (self st) = ∅)) as [|Hne]; [done|].
      apply (pick_is_Some rng (draws st)) in Hne as [? ?]. congruence. }
    unfold get_offset_manager. rewrite gom_empty by done. cbn [fst].
    rewrite new_events_tick. done.
Qed.

Lemma get_offset_manager_backoff_progression_witness :
  sleeps (new_events two_brokers
            (get_offset_manager (λ _, 0) (third_time_lucky 2) "g1" two_brokers).1)
  = [2; 2 ^ 2]%Z.
Proof.
  apply (get_offset_manager_backoff_progression two_brokers (λ _, 0)
           (third_time_lucky 2) "g1") with (b := broker2).
  - vm_compute. reflexivity.
  - exact I.
  - exact I.
Defined.

(** C7, as stated, fails: with brokers 1 and 2, draws 0, 1, 2, ... and
    queries that all time out, the second query goes to the broker of the
    first draw, not to the broker of the second draw. *)
Lemma get_offset_manager_reselects_counterexample :
  ¬ reselects_per_attempt (λ k, k) two_brokers
      (get_offset_manager (λ k, k) always_timeout "g1" two_brokers).1.
Proof.
  intros H. specialize (H 1 broker2). vm_compute in H.
  specialize (H eq_refl). discriminate H.
Qed.

(** C7, amended. The broker is chosen once, by the single draw made before
    the first attempt; every coordinator query of the call, retries
    included, goes to that broker, and the call consumes exactly one draw. *)
Theorem get_offset_manager_single_selection st rng net g :
  let st' := (get_offset_manager rng net g st).1 in
  Forall (λ b, pick rng (draws st) (self st) = Some b) (targets (new_events st st'))
  ∧ draws st' = S (draws st).
Proof.
  cbn zeta. destruct (pick rng (draws st) (self st)) as [b|] eqn:Hp.
  - rewrite (gom_nonempty _ _ _ _ _ Hp). unfold unrolled.
    destruct (net 1%Z b g); [observe; by repeat constructor|].
    destruct (net 2%Z b g); [observe; by repeat constructor|].
    destruct (net 3%Z b g); observe; by repeat constructor.
  - assert (He : _brokers (self st) = ∅).
    { destruct (decide (_brokers (self st) = ∅)) as [|Hne]; [done|].
      apply (pick_is_Some rng (draws st)) in Hne as [? ?]. congruence. }
    unfold get_offset_manager. rewrite gom_empty by done. cbn [fst].
    rewrite new_events_tick. by repeat constructor.
Qed.

(** C8. Coordinator lookup: when attempt number [k] is the first whose
    query succeeds, with response [res], [get_offset_manager] returns the
    handle stored under [res.coordinator_id] in the broker map, and raises
    the coordinator-not-found exception if there is none; either way the
    cluster object is left as it was and no metadata is fetched. *)
Theorem get_offset_manager_lookup st rng net g b k res :
  pick rng (draws st) (self st) = Some b →
  (1 ≤ k ≤ MAX_RETRIES)%Z →
  (∀ j, (1 ≤ j < k)%Z → failed (net j b g)) →
  net k b g = Answer res →
  let out := get_offset_manager rng net g st in
  out.2 = match _brokers (self st) !! ConsumerMetadataResponse.coordinator_id res with
          | Some coordinator => Return coordinator
          | None => Raise (CoordinatorNotFound (ConsumerMetadataResponse.coordinator_id res))
          end
  ∧ self out.1 = self st
  ∧ refreshes (new_events st out.1) = [].
Proof.
  intros Hp Hk Hfail Hres. cbn zeta.
  rewrite (gom_nonempty _ _ _ _ _ Hp). unfold unrolled.
  assert (Hcase : k = 1%Z ∨ k = 2%Z ∨ k = 3%Z) by (unfold MAX_RETRIES in Hk; lia).
  destruct Hcase as [-> | [-> | ->]].
  - rewrite Hres. by observe.
  - pose proof (Hfail 1%Z ltac:(lia)) as H1.
    destruct (net 1%Z b g); [done|]. rewrite Hres. by observe.
  - pose proof (Hfail 1%Z ltac:(lia)) as H1. pose proof (Hfail 2%Z ltac:(lia)) as H2.
    destruct (net 1%Z b g); [done|]. destruct (net 2%Z b g); [done|].
    rewrite Hres. by observe.
Qed.

Lemma get_offset_manager_lookup_witness :
  let out := get_offset_manager (λ _, 0) (third_time_lucky 2) "g1" two_brokers in
  out.2 = match _brokers (self two_brokers) !! 2%Z with
          | Some coordinator => Return coordinator
          | None => Raise (CoordinatorNotFound 2)
          end
  ∧ self out.1 = self two_brokers
  ∧ refreshes (new_events two_brokers out.1) = [].
Proof.
  apply (get_offset_manager_lookup two_brokers (λ _, 0) (third_time_lucky 2) "g1"
           broker2 3 (ConsumerMetadataResponse.mk 2)).
  - vm_compute. reflexivity.
  - unfold MAX_RETRIES. lia.
  - intros j Hj. unfold third_time_lucky.
    destruct (Z.ltb_spec j 3); [exact I | lia].
  - reflexivity.
Defined.

(** C10. With an empty broker map the random choice fails at once:
    [get_offset_manager] raises [IndexError], which is neither the
    coordinator-not-found exception nor a propagated query failure, since no
    query is sent; nothing is slept and the cluster object is untouched. *)
Theorem get_offset_manager_no_brokers st rng net g :
  _brokers (self st) = ∅ →
  ∃ st',
    get_offset_manager rng net g st = (st', Raise IndexError)
    ∧ new_events st st' = []
    ∧ self st' = self st
    ∧ ∀ c, IndexError ≠ CoordinatorNotFound c.
Proof.
  intros He. exists (tick st). unfold get_offset_manager.
  rewrite gom_empty by done. split; [done|].
  split; [apply new_events_tick|]. done.
Qed.

Lemma get_offset_manager_no_brokers_witness :
  ∃ st',
    get_offset_manager (λ _, 0) always_timeout "g1" (no_brokers "10.0.0.1:9092")
    = (st', Raise IndexError)
    ∧ new_events (no_brokers "10.0.0.1:9092") st' = []
    ∧ self st' = self (no_brokers "10.0.0.1:9092")
    ∧ ∀ c, IndexError ≠ CoordinatorNotFound c.
Proof.
  apply (get_offset_manager_no_brokers (no_brokers "10.0.0.1:9092")).
  reflexivity.
Defined.

(** ** The claims about [update] *)

(** C1. Exact broker reconciliation: when the fetch returns snapshot [md]
    and no broker of the map reappears in it with another host or port,
    [update()] returns, and afterwards the keys of the broker map are
    exactly the ids of the snapshot: an id that is not in the snapshot has
    no entry, an id that was in the map keeps its handle, and an id that is
    new has a handle built from its metadata. *)
Theorem update_brokers_exact st net md :
  (_get_metadata net st).2 = Return md →
  NoDup (MetadataResponse.brokers md).*1 →
  (∀ id meta b, (id, meta) ∈ MetadataResponse.brokers md →
                _brokers (self st) !! id = Some b → same_address meta b) →
  ∃ st', update net st = (st', Return tt)
    ∧ dom (_brokers (self st')) = list_to_set (MetadataResponse.brokers md).*1
    ∧ (∀ id, id ∉ (MetadataResponse.brokers md).*1 → _brokers (self st') !! id = None)
    ∧ (∀ id meta, (id, meta) ∈ MetadataResponse.brokers md →
         match _brokers (self st) !! id with
         | Some b => _brokers (self st') !! id = Some b
         | None => ∃ o, _brokers (self st') !! id = Some (new_broker (self st) o meta)
         end).
Proof.
  intros Hg Hnd Hcompat. rewrite update_unfold.
  destruct (_get_metadata_frame net st) as [Hself _].
  destruct (_get_metadata net st) as [st0 r0]. cbn in Hg, Hself. subst r0.
  set (l := MetadataResponse.brokers md) in *.
  destruct (_update_brokers_spec l st0)
    as (st1 & r & -> & _ & _ & Hkept & Hgone & Horig & Hres).
  rewrite Hself in Hkept, Horig.
  assert (Hok : r = Return tt).
  { destruct r as [[]|e|]; [done| |done].
    destruct Hres as (id & meta & b & Hin & Hb & Hbad & _). exfalso. apply Hbad.
    destruct (Horig id b Hb) as [Hold|(_ & meta' & o & Hin' & ->)].
    - by eapply Hcompat.
    - by rewrite (NoDup_fst_functional _ _ _ _ Hnd Hin Hin'). }
  subst r.
  destruct (_update_topics_spec (MetadataResponse.topics md) st1)
    as (st' & -> & Hsameb & _).
  exists st'. split; [done|]. rewrite Hsameb. split; [|split].
  - apply set_eq. intros k. rewrite elem_of_dom, elem_of_list_to_set. split.
    + intros [b Hb]. destruct (decide (k ∈ l.*1)) as [|Hk]; [done|].
      rewrite (Hgone k Hk) in Hb. done.
    + intros ([k' meta] & -> & Hin)%list_elem_of_fmap.
      destruct (Hres _ _ Hin) as (b & ? & _). by exists b.
  - done.
  - intros id meta Hin. destruct (_brokers (self st) !! id) as [b|] eqn:Hb.
    + apply Hkept; [done|]. by eapply elem_of_fst.
    + destruct (Hres _ _ Hin) as (b' & Hb' & _).
      destruct (Horig id b' Hb') as [Hold|(_ & meta' & o & Hin' & ->)]; [congruence|].
      rewrite (NoDup_fst_functional _ _ _ _ Hnd Hin Hin'). by exists o.
Qed.

Lemma update_brokers_exact_witness :
  ∃ st', update (answering snapshot_1_3) two_brokers = (st', Return tt)
    ∧ dom (_brokers (self st')) = list_to_set [1%Z; 3%Z]
    ∧ (∀ id, id ∉ [1%Z; 3%Z] → _brokers (self st') !! id = None)
    ∧ (∀ id meta, (id, meta) ∈ MetadataResponse.brokers snapshot_1_3 →
         match _brokers (self two_brokers) !! id with
         | Some b => _brokers (self st') !! id = Some b
         | None => ∃ o, _brokers (self st') !! id = Some (new_broker (self two_brokers) o meta)
         end).
Proof.
  apply (update_brokers_exact two_brokers (answering snapshot_1_3) snapshot_1_3).
  - vm_compute. reflexivity.
  - cbn. apply NoDup_cons. split; [|apply NoDup_singleton].
    intros H%list_elem_of_singleton. discriminate H.
  - intros id meta b Hin Hb. cbn in Hin.
    apply elem_of_cons in Hin as [Hin|Hin].
    + injection Hin as -> ->. vm_compute in Hb. injection Hb as <-.
      split; reflexivity.
    + apply list_elem_of_singleton in Hin. injection Hin as -> ->.
      vm_compute in Hb. discriminate Hb.
Defined.

(** C3. Fatal address change: when id [id] is in the broker map with handle
    [b] and the snapshot gives it another host or port, [_update_brokers]
    raises the host/port-change exception and the map still has [b] under
    [id]. *)
Theorem _update_brokers_address_change st l id meta b :
  (id, meta) ∈ l →
  _brokers (self st) !! id = Some b →
  BrokerMetadata.host meta ≠ Broker.host b ∨ BrokerMetadata.port meta ≠ Broker.port b →
  ∃ st' b', _update_brokers l st = (st', Raise (HostPortChange b'))
    ∧ _brokers (self st') !! id = Some b.
Proof.
  intros Hin Hb Hdiff.
  destruct (_update_brokers_spec l st)
    as (st' & r & -> & _ & _ & Hkept & _ & _ & Hres).
  assert (Hid : _brokers (self st') !! id = Some b).
  { apply Hkept; [done|]. by eapply elem_of_fst. }
  destruct r as [[]|e|]; [| |done].
  - exfalso. destruct (Hres _ _ Hin) as (b' & Hb' & Hh & Hp).
    rewrite Hid in Hb'. injection Hb' as <-. by destruct Hdiff.
  - destruct Hres as (_ & _ & b' & _ & _ & _ & ->). by exists st', b'.
Qed.

Lemma _update_brokers_address_change_witness :
  ∃ st' b',
    _update_brokers (MetadataResponse.brokers snapshot_moved) two_brokers
    = (st', Raise (HostPortChange b'))
    ∧ _brokers (self st') !! 1%Z = Some broker1.
Proof.
  apply (_update_brokers_address_change two_brokers
           (MetadataResponse.brokers snapshot_moved) 1
           (BrokerMetadata.mk 1 "10.0.0.9" 9092) broker1).
  - apply list_elem_of_here.
  - vm_compute. reflexivity.
  - left. cbn. discriminate.
Defined.

(** C4. Idempotence of refresh: after an [update()] that returned on
    snapshot [md], an [update()] whose fetch returns the same snapshot
    returns too, leaves the broker map as it is (the same handles under the
    same ids), and leaves the topic map with the same names bound to the
    same handle objects; no handle is created. *)
Theorem update_idempotent st net md st1 net' :
  (_get_metadata net st).2 = Return md →
  update net st = (st1, Return tt) →
  (_get_metadata net' st1).2 = Return md →
  ∃ st2, update net' st1 = (st2, Return tt)
    ∧ _brokers (self st2) = _brokers (self st1)
    ∧ dom (_topics (self st2)) = dom (_topics (self st1))
    ∧ Topic.oid <$> _topics (self st2) = Topic.oid <$> _topics (self st1).
Proof.
  intros Hg Hup Hg'. rewrite update_unfold in Hup. rewrite update_unfold.
  destruct (_get_metadata_frame net st) as [Hself _].
  destruct (_get_metadata net st) as [st0 r0]. cbn in Hg, Hself. subst r0.
  destruct (_get_metadata_frame net' st1) as [Hself' _].
  destruct (_get_metadata net' st1) as [st0' r0']. cbn in Hg', Hself'. subst r0'.
  set (lb := MetadataResponse.brokers md) in *.
  set (lt := MetadataResponse.topics md) in *.
  (* the first cycle *)
  destruct (_update_brokers_spec lb st0)
    as (sta & ra & Hra & _ & Hsa & _ & Hgone & _ & Hres).
  rewrite Hra in Hup. destruct ra as [[]|e|]; [|by inversion Hup|done].
  destruct (_update_topics_spec lt sta)
    as (st1' & Hrt & Hb1 & Hs1 & Hout1 & _ & _ & Hin1 & _).
  rewrite Hrt in Hup. injection Hup as ->.
  (* the second cycle: brokers *)
  destruct (_update_brokers_spec lb st0')
    as (stb & rb & -> & Htb & Hsb & Hkept & Hgone' & Horig & Hres').
  rewrite Hself' in Hkept, Horig, Htb, Hsb.
  assert (Hok : rb = Return tt).
  { destruct rb as [[]|e|]; [done| |done].
    destruct Hres' as (id & meta & b' & Hin & Hb' & Hbad & _). exfalso.
    destruct (Hres _ _ Hin) as (b & Hb & Hgood). rewrite <- Hb1 in Hb.
    destruct (Horig id b' Hb') as [Hold|(Hnone & _)]; [|congruence].
    rewrite Hb in Hold. injection Hold as ->. done. }
  subst rb.
  assert (Hbrokers : _brokers (self stb) = _brokers (self st1)).
  { apply map_eq. intros k. destruct (decide (k ∈ lb.*1)) as [Hk|Hk].
    - apply list_elem_of_fmap in Hk as ([k' meta] & -> & Hin).
      destruct (Hres _ _ Hin) as (b & Hb & _). rewrite <- Hb1 in Hb.
      cbn [fst]. rewrite Hb. apply Hkept; [done|]. by eapply elem_of_fst.
    - rewrite (Hgone' k Hk), Hb1. by rewrite (Hgone k Hk). }
  (* the second cycle: topics *)
  destruct (_update_topics_spec lt stb)
    as (st2 & -> & Hb2 & _ & Hout2 & Hkeep2 & Horig2 & _).
  rewrite Htb in Hkeep2, Horig2.
  assert (Hoids : Topic.oid <$> _topics (self st2) = Topic.oid <$> _topics (self st1)).
  { apply map_eq. intros name. rewrite !lookup_fmap.
    destruct (_topics (self st1) !! name) as [tp|] eqn:Htp.
    - destruct (decide (name ∈ lt.*1)) as [Hn|Hn].
      + destruct (Hkeep2 name tp Htp Hn) as (tp' & -> & Ho). cbn. by rewrite Ho.
      + by rewrite (Hout1 name Hn) in Htp.
    - destruct (_topics (self st2) !! name) as [tp'|] eqn:Htp'; [|done]. exfalso.
      destruct (decide (name ∈ lt.*1)) as [Hn|Hn].
      + destruct (Horig2 name) as [[? Hs]|He]; [by eexists|congruence|].
        rewrite (_should_exclude_topic_settings _ _ _ Hsb),
          (_should_exclude_topic_settings _ _ _ Hs1) in He.
        destruct (Hin1 name Hn He) as [? ?]. congruence.
      + by rewrite (Hout2 name Hn) in Htp'. }
  exists st2. split; [done|]. split; [congruence|]. split; [|done].
  apply (f_equal dom) in Hoids. by rewrite !dom_fmap_L in Hoids.
Qed.

Lemma update_idempotent_witness :
  ∃ st2,
    update (answering snapshot_1_3) (update (answering snapshot_1_3) two_brokers).1
    = (st2, Return tt)
    ∧ _brokers (self st2)
      = _brokers (self (update (answering snapshot_1_3) two_brokers).1)
    ∧ dom (_topics (self st2))
      = dom (_topics (self (update (answering snapshot_1_3) two_brokers).1))
    ∧ Topic.oid <$> _topics (self st2)
      = Topic.oid <$> _topics (self (update (answering snapshot_1_3) two_brokers).1).
Proof.
  apply (update_idempotent two_brokers (answering snapshot_1_3) snapshot_1_3
           (update (answering snapshot_1_3) two_brokers).1 (answering snapshot_1_3)).
  - vm_compute. reflexivity.
  - vm_compute. reflexivity.
  - vm_compute. reflexivity.
Defined.

Lemma settings_exclude c c' :
  settings c' = settings c → _exclude_internal_topics c' = _exclude_internal_topics c.
Proof. unfold settings. by intros [= _ _ _ _ ->]. Qed.

Lemma get_offset_manager_self rng net g st :
  self (get_offset_manager rng net g st).1 = self st.
Proof.
  destruct (pick rng (draws st) (self st)) as [b|] eqn:Hp.
  - rewrite (gom_nonempty _ _ _ _ _ Hp). unfold unrolled.
    by repeat destruct (net _ b g).
  - assert (He : _brokers (self st) = ∅).
    { destruct (decide (_brokers (self st) = ∅)) as [|Hne]; [done|].
      apply (pick_is_Some rng (draws st)) in Hne as [? ?]. congruence. }
    unfold get_offset_manager. by rewrite gom_empty.
Qed.

(** With exclusion enabled, one refresh cycle keeps internal topics out,
    however it ends. *)
Lemma update_keeps_internal_topics_out net st :
  _exclude_internal_topics (self st) = true →
  no_internal_topics (self st) →
  _exclude_internal_topics (self (update net st).1) = true
  ∧ no_internal_topics (self (update net st).1).
Proof.
  intros Hex Hinv. rewrite update_unfold.
  destruct (_get_metadata_frame net st) as [Hself _].
  destruct (_get_metadata net st) as [st0 r0]. cbn in Hself.
  destruct r0 as [md|e|]; [|cbn [fst]; by rewrite Hself..].
  destruct (_update_brokers_spec (MetadataResponse.brokers md) st0)
    as (sta & ra & -> & Hta & Hsa & _).
  rewrite Hself in Hta, Hsa.
  assert (Hexa : _exclude_internal_topics (self sta) = true).
  { by rewrite (settings_exclude _ _ Hsa). }
  assert (Hinva : no_internal_topics (self sta)).
  { unfold no_internal_topics. by rewrite Hta. }
  destruct ra as [[]|e|]; [|done..].
  destruct (_update_topics_spec (MetadataResponse.topics md) sta)
    as (st' & -> & _ & Hs' & _ & _ & Horig & _).
  cbn [fst]. split; [by rewrite (settings_exclude _ _ Hs')|].
  intros name Hsome. destruct (Horig name Hsome) as [Hold|He].
  - by apply Hinva.
  - unfold _should_exclude_topic in He. by rewrite Hexa in He.
Qed.

(** C2. Internal-topic exclusion.  With exclusion enabled, in every state a
    cluster object can reach through any sequence of calls, on any snapshot
    contents, no topic of the map has a name starting with the reserved
    double underscore.  With exclusion disabled, [_update_topics] treats
    every name of the snapshot alike, reserved prefix or not: an absent
    name gets a new handle built from its metadata, a present one has its
    handle updated with the metadata. *)
Theorem internal_topic_exclusion :
  (∀ st, reachable true st → no_internal_topics (self st))
  ∧ (∀ st l name meta,
       _exclude_internal_topics (self st) = false →
       NoDup l.*1 → (name, meta) ∈ l →
       (_update_topics l st).2 = Return tt
       ∧ match _topics (self st) !! name with
         | Some tp =>
             _topics (self (_update_topics l st).1) !! name = Some (Topic.update meta tp)
         | None =>
             ∃ o, _topics (self (_update_topics l st).1) !! name = Some (Topic.mk o [meta])
         end).
Proof.
  split.
  - intros st Hreach.
    enough (_exclude_internal_topics (self st) = true ∧ no_internal_topics (self st))
      as [_ ?]; [done|].
    induction Hreach as [hosts t1 t2 buf net st0 st Hinit|net st _ [IH1 IH2]
                         |rng net g st _ IH].
    + unfold __init__ in Hinit. rewrite bind_seq in Hinit. cbn [set_self] in Hinit.
      set (stI := mkState _ _ _ _) in Hinit.
      destruct (update_keeps_internal_topics_out net stI) as [H1 H2]; [done| |].
      { intros name [? Hn]. unfold stI in Hn. cbn in Hn. by rewrite lookup_empty in Hn. }
      rewrite Hinit in H1, H2. done.
    + by apply update_keeps_internal_topics_out.
    + by rewrite get_offset_manager_self.
  - intros st l name meta Hex Hnd Hin.
    destruct (_update_topics_spec l st) as (st' & -> & _ & _ & _ & _ & _ & _ & _ & Hexact).
    split; [done|]. cbn [fst].
    assert (He : _should_exclude_topic (self st) name = false).
    { unfold _should_exclude_topic. by rewrite Hex. }
    specialize (Hexact Hnd name meta Hin He).
    destruct (_topics (self st) !! name); [done|].
    destruct Hexact as (o & _ & ?). by exists o.
Qed.

Lemma internal_topic_exclusion_witness :
  no_internal_topics (self refreshed)
  ∧ (_update_topics (MetadataResponse.topics snapshot_1_3) two_brokers_all_topics).2
    = Return tt
  ∧ match _topics (self two_brokers_all_topics) !! "__consumer_offsets" with
    | Some tp =>
        _topics (self (_update_topics (MetadataResponse.topics snapshot_1_3)
                         two_brokers_all_topics).1) !! "__consumer_offsets"
        = Some (Topic.update (TopicMetadata.mk "__consumer_offsets" [0%Z]) tp)
    | None =>
        ∃ o, _topics (self (_update_topics (MetadataResponse.topics snapshot_1_3)
                              two_brokers_all_topics).1) !! "__consumer_offsets"
             = Some (Topic.mk o [TopicMetadata.mk "__consumer_offsets" [0%Z]])
    end.
Proof.
  split.
  - apply (proj1 internal_topic_exclusion). unfold refreshed.
    apply reach_update. unfold constructed.
    apply (reach_init true "10.0.0.1:9092" (30 * 1000) (10 * 1000) (64 * 1024)
             (answering snapshot_1_3) (no_brokers "")).
    vm_compute. reflexivity.
  - apply (proj2 internal_topic_exclusion two_brokers_all_topics
             (MetadataResponse.topics snapshot_1_3) "__consumer_offsets"
             (TopicMetadata.mk "__consumer_offsets" [0%Z])).
    + reflexivity.
    + cbn. apply NoDup_cons. split; [|apply NoDup_singleton].
      intros H%list_elem_of_singleton. discriminate H.
    + cbn. apply list_elem_of_further, list_elem_of_here.
Defined.

(** ** Further properties of the metadata fetch *)

Lemma new_events_said evs st : new_events st (say evs st) = evs.
Proof. unfold new_events. cbn. by rewrite drop_app_length. Qed.

(** The fetch is fail-fast: it sends at most one metadata request, whatever
    the number of candidates, and leaves the cluster object alone.  What it
    returns is the answer to that request; what it raises is either the
    failure of that request, or [ValueError] from a seed entry that does not
    unpack, in which case nothing was sent. *)
Theorem _get_metadata_single_request net st :
  let out := _get_metadata net st in
  let sent := refreshes (new_events st out.1) in
  self out.1 = self st
  ∧ (length sent ≤ 1)%nat
  ∧ match out.2 with
    | Return md => ∃ ep, sent = [ep] ∧ net ep = Answer md
    | Raise e => (e = ValueError ∧ sent = []) ∨ (∃ ep, sent = [ep] ∧ net ep = Failure e)
    | OutOfFuel => False
    end.
Proof.
  cbn zeta. destruct (_get_metadata_run net st) as (x & rest & _ & ->).
  destruct x as [b|s].
  - destruct (net (Known b)) eqn:E; cbn [fst snd]; rewrite new_events_said;
      (split; [done|]); (split; [cbn; lia|]); [|right]; by exists (Known b).
  - destruct (split ":"%char s) as [|h [|p [|? ?]]];
      try (cbn [fst snd]; rewrite new_events_said; split; [done|];
           split; [cbn; lia|]; by left).
    destruct (net (Temp h p)) eqn:E; cbn [fst snd]; rewrite new_events_said;
      (split; [done|]); (split; [cbn; lia|]); [|right]; by exists (Temp h p).
Qed.

(** Known brokers come before seeds: when the broker map is not empty the
    one request goes to a handle of the map, the seed list is not read, and
    the fetch returns or raises what that broker answers. *)
Theorem _get_metadata_prefers_known_brokers net st :
  _brokers (self st) ≠ ∅ →
  ∃ id b,
    _brokers (self st) !! id = Some b
    ∧ refreshes (new_events st (_get_metadata net st).1) = [Known b]
    ∧ (_get_metadata net st).2 = passed_on (net (Known b)).
Proof.
  intros Hne. destruct (_get_metadata_run net st) as (x & rest & Hc & ->).
  unfold candidates in Hc.
  destruct (Nat.eqb_spec (size (_brokers (self st))) 0) as [Hz|Hnz]; cbn in Hc.
  { by apply map_size_empty_iff in Hz. }
  destruct (map_to_list (_brokers (self st))) as [|[id b] l] eqn:Hl; [done|].
  cbn in Hc. injection Hc as <- _.
  exists id, b. split.
  { apply elem_of_map_to_list. rewrite Hl. apply list_elem_of_here. }
  destruct (net (Known b)); cbn [fst snd]; by rewrite new_events_said.
Qed.

Lemma _get_metadata_prefers_known_brokers_witness :
  ∃ id b,
    _brokers (self two_brokers) !! id = Some b
    ∧ refreshes (new_events two_brokers
                   (_get_metadata (answering snapshot_1_3) two_brokers).1) = [Known b]
    ∧ (_get_metadata (answering snapshot_1_3) two_brokers).2
      = passed_on (answering snapshot_1_3 (Known b)).
Proof.
  apply (_get_metadata_prefers_known_brokers (answering snapshot_1_3) two_brokers).
  apply insert_non_empty.
Defined.

(** *** Reading the seed list *)

Lemma append_empty_r s : s +:+ "" = s.
Proof.
  induction s as [|a s IH]; [done|].
  change (String a (s +:+ "") = String a s). by rewrite IH.
Qed.

Lemma split_lacks c s : lacks c s → split c s = [s].
Proof.
  induction s as [|a s IH]; cbn; [done|]. intros [Ha Hs].
  apply Ascii.eqb_neq in Ha. rewrite Ha, (IH Hs). done.
Qed.

Lemma split_prefix c a t :
  lacks c a →
  split c (a +:+ t) = match split c t with
                      | w :: ws => (a +:+ w) :: ws
                      | [] => [a]
                      end.
Proof.
  induction a as [|x a IH].
  { intros _. change ("" +:+ t) with t.
    pose proof (split_nonempty c t) as Hne. by destruct (split c t). }
  intros [Hx Ha]. apply Ascii.eqb_neq in Hx.
  change (String x a +:+ t) with (String x (a +:+ t)).
  cbn [split]. rewrite Hx, (IH Ha).
  by destruct (split c t).
Qed.

(** The first entry of a seed list that starts with entry [first]. *)
Lemma split_first_entry first tail :
  lacks ","%char first →
  tail = "" ∨ (∃ r, tail = String ","%char r) →
  ∃ rest, split ","%char (first +:+ tail) = first :: rest.
Proof.
  intros Hf Htail. rewrite (split_prefix _ _ _ Hf).
  destruct Htail as [->|[r ->]].
  - change (split ","%char "") with [""]. lazy beta iota.
    rewrite append_empty_r. by eexists.
  - change (split ","%char (String ","%char r)) with ("" :: split ","%char r).
    lazy beta iota. rewrite append_empty_r. by eexists.
Qed.

Lemma lacks_host_port c h p :
  c ≠ ":"%char → lacks c h → lacks c p → lacks c (h +:+ String ":"%char p).
Proof.
  intros Hc Hh Hp. induction h as [|a h IH]; cbn.
  - split; [by intros <-|done].
  - destruct Hh as [? ?]. split; [done|by apply IH].
Qed.

Lemma split_host_port h p :
  lacks ":"%char h → lacks ":"%char p →
  split ":"%char (h +:+ String ":"%char p) = [h; p].
Proof.
  intros Hh Hp. rewrite (split_prefix _ _ _ Hh). cbn.
  by rewrite (split_lacks _ _ Hp), append_empty_r.
Qed.

Lemma candidates_seeds c :
  _brokers c = ∅ → candidates c = CString <$> split ","%char (_seed_hosts c).
Proof. intros He. unfold candidates. by rewrite He, map_size_empty. Qed.

(** With no broker known, the fetch goes to the first entry of the seed
    list and to no other: for seed hosts [h:p] or [h:p,...] the one request
    is sent to the temporary broker for host [h] and port [p] (the port as
    the string it is), and the fetch returns or raises what that broker
    answers. *)
Theorem _get_metadata_first_seed net st h p tail :
  _brokers (self st) = ∅ →
  _seed_hosts (self st) = (h +:+ String ":"%char p) +:+ tail →
  lacks ","%char h → lacks ":"%char h → lacks ","%char p → lacks ":"%char p →
  tail = "" ∨ (∃ r, tail = String ","%char r) →
  refreshes (new_events st (_get_metadata net st).1) = [Temp h p]
  ∧ (_get_metadata net st).2 = passed_on (net (Temp h p)).
Proof.
  intros He Hseed Hh1 Hh2 Hp1 Hp2 Htail.
  destruct (_get_metadata_run net st) as (x & rest & Hc & ->).
  rewrite (candidates_seeds _ He), Hseed in Hc.
  destruct (split_first_entry (h +:+ String ":"%char p) tail) as [rest' Hs];
    [by apply lacks_host_port|done|].
  rewrite Hs in Hc. cbn in Hc. injection Hc as <- _.
  rewrite (split_host_port _ _ Hh2 Hp2).
  destruct (net (Temp h p)); cbn [fst snd]; by rewrite new_events_said.
Qed.

Lemma _get_metadata_first_seed_witness :
  refreshes (new_events (no_brokers "10.0.0.1:9092,10.0.0.2:9092")
               (_get_metadata unreachable (no_brokers "10.0.0.1:9092,10.0.0.2:9092")).1)
  = [Temp "10.0.0.1" "9092"]
  ∧ (_get_metadata unreachable (no_brokers "10.0.0.1:9092,10.0.0.2:9092")).2
    = passed_on (unreachable (Temp "10.0.0.1" "9092")).
Proof.
  apply (_get_metadata_first_seed unreachable
           (no_brokers "10.0.0.1:9092,10.0.0.2:9092") "10.0.0.1" "9092"
           ",10.0.0.2:9092").
  - reflexivity.
  - reflexivity.
  - cbn. repeat split; discriminate.
  - cbn. repeat split; discriminate.
  - cbn. repeat split; discriminate.
  - cbn. repeat split; discriminate.
  - right. by eexists.
Defined.

(** A first seed entry without a colon (a host without its port, or the
    empty string) makes the fetch raise [ValueError] before anything is
    sent; the entries after it are not tried. *)
Theorem _get_metadata_seed_without_port net st first tail :
  _brokers (self st) = ∅ →
  _seed_hosts (self st) = first +:+ tail →
  lacks ","%char first → lacks ":"%char first →
  tail = "" ∨ (∃ r, tail = String ","%char r) →
  (_get_metadata net st).2 = Raise ValueError
  ∧ refreshes (new_events st (_get_metadata net st).1) = [].
Proof.
  intros He Hseed Hf1 Hf2 Htail.
  destruct (_get_metadata_run net st) as (x & rest & Hc & ->).
  rewrite (candidates_seeds _ He), Hseed in Hc.
  destruct (split_first_entry first tail) as [rest' Hs]; [done..|].
  rewrite Hs in Hc. cbn in Hc. injection Hc as <- _.
  rewrite (split_lacks _ _ Hf2). cbn [fst snd]. by rewrite new_events_said.
Qed.

Lemma _get_metadata_seed_without_port_witness :
  (_get_metadata (answering snapshot_1_3) (no_brokers "localhost,10.0.0.2:9092")).2
  = Raise ValueError
  ∧ refreshes (new_events (no_brokers "localhost,10.0.0.2:9092")
                 (_get_metadata (answering snapshot_1_3)
                    (no_brokers "localhost,10.0.0.2:9092")).1) = [].
Proof.
  apply (_get_metadata_seed_without_port (answering snapshot_1_3)
           (no_brokers "localhost,10.0.0.2:9092") "localhost" ",10.0.0.2:9092").
  - reflexivity.
  - reflexivity.
  - cbn. repeat split; discriminate.
  - cbn. repeat split; discriminate.
  - right. by eexists.
Defined.

Lemma _get_metadata_never_unable_to_connect_witness :
  (_get_metadata (answering snapshot_1_3) two_brokers).2 ≠ Raise UnableToConnect.
Proof.
  apply (_get_metadata_never_unable_to_connect (answering snapshot_1_3) two_brokers).
  intros ep. discriminate.
Defined.

(** ** Further properties of the refresh cycle *)

(** Topic reconciliation always returns and never touches the broker map.
    Afterwards a name is in the topic map exactly when the snapshot has it
    and it either was in the map already or is not excluded: what the
    snapshot lacks is evicted, and exclusion only keeps new names out. *)
Theorem _update_topics_keys l st :
  let out := _update_topics l st in
  out.2 = Return tt
  ∧ _brokers (self out.1) = _brokers (self st)
  ∧ ∀ name,
      is_Some (_topics (self out.1) !! name)
      ↔ name ∈ l.*1
        ∧ (is_Some (_topics (self st) !! name)
           ∨ _should_exclude_topic (self st) name = false).
Proof.
  cbn zeta.
  destruct (_update_topics_spec l st)
    as (st' & -> & Hb & _ & Hout & Hkeep & Horig & Hin & _).
  cbn [fst snd]. split; [done|]. split; [done|]. intros name. split.
  - intros Hsome. destruct (decide (name ∈ l.*1)) as [Hn|Hn].
    + split; [done|]. by apply Horig.
    + rewrite (Hout name Hn) in Hsome. by destruct Hsome.
  - intros [Hn [[tp Htp]|He]].
    + destruct (Hkeep name tp Htp Hn) as (tp' & ? & _). by exists tp'.
    + by apply Hin.
Qed.

(** When the fetch raises, [update()] raises the same exception and the
    cluster object is exactly as it was: nothing is evicted, nothing is
    created. *)
Theorem update_fetch_failure net st e :
  (_get_metadata net st).2 = Raise e →
  (update net st).2 = Raise e
  ∧ self (update net st).1 = self st
  ∧ next_oid (update net st).1 = next_oid st.
Proof.
  intros Hg. rewrite update_unfold.
  destruct (_get_metadata_frame net st) as [Hself Hoid].
  destruct (_get_metadata net st) as [st0 r0]. cbn in Hg, Hself, Hoid. by subst r0.
Qed.

Lemma update_fetch_failure_witness :
  (update unreachable two_brokers).2 = Raise (RequestError 111)
  ∧ self (update unreachable two_brokers).1 = self two_brokers
  ∧ next_oid (update unreachable two_brokers).1 = next_oid two_brokers.
Proof.
  apply (update_fetch_failure unreachable two_brokers (RequestError 111)).
  vm_compute. reflexivity.
Defined.

(** [update()] is not atomic.  When a known broker comes back with another
    address, the call raises only after the first loop has run: every
    broker the snapshot lacks is already evicted, the offending entry still
    holds its old handle, and the topic map has not been reconciled at all. *)
Theorem update_not_atomic net st md id meta b :
  (_get_metadata net st).2 = Return md →
  (id, meta) ∈ MetadataResponse.brokers md →
  _brokers (self st) !! id = Some b →
  BrokerMetadata.host meta ≠ Broker.host b ∨ BrokerMetadata.port meta ≠ Broker.port b →
  ∃ st' b',
    update net st = (st', Raise (HostPortChange b'))
    ∧ _topics (self st') = _topics (self st)
    ∧ (∀ k, k ∉ (MetadataResponse.brokers md).*1 → _brokers (self st') !! k = None)
    ∧ _brokers (self st') !! id = Some b.
Proof.
  intros Hg Hin Hb Hdiff. rewrite update_unfold.
  destruct (_get_metadata_frame net st) as [Hself _].
  destruct (_get_metadata net st) as [st0 r0]. cbn in Hg, Hself. subst r0.
  destruct (_update_brokers_spec (MetadataResponse.brokers md) st0)
    as (st' & r & -> & Ht & _ & Hkept & Hgone & _ & Hres).
  rewrite Hself in Ht, Hkept.
  assert (Hid : _brokers (self st') !! id = Some b).
  { apply Hkept; [done|]. by eapply elem_of_fst. }
  destruct r as [[]|e|]; [| |done].
  - exfalso. destruct (Hres _ _ Hin) as (b' & Hb' & Hh & Hp).
    rewrite Hid in Hb'. injection Hb' as <-. by destruct Hdiff.
  - destruct Hres as (_ & _ & b' & _ & _ & _ & ->). by exists st', b'.
Qed.

Lemma update_not_atomic_witness :
  ∃ st' b',
    update (answering snapshot_moved_alone) two_brokers
    = (st', Raise (HostPortChange b'))
    ∧ _topics (self st') = _topics (self two_brokers)
    ∧ (∀ k, k ∉ (MetadataResponse.brokers snapshot_moved_alone).*1 →
            _brokers (self st') !! k = None)
    ∧ _brokers (self st') !! 1%Z = Some broker1.
Proof.
  apply (update_not_atomic (answering snapshot_moved_alone) two_brokers
           snapshot_moved_alone 1 (BrokerMetadata.mk 1 "10.0.0.9" 9092) broker1).
  - vm_compute. reflexivity.
  - apply list_elem_of_here.
  - vm_compute. reflexivity.
  - left. cbn. discriminate.
Defined.

(** A snapshot without brokers (the FIXME of [_update_brokers]: a cluster
    with no topics reports none) empties the broker map, and [update()]
    still returns.  From then on the fetch falls back to the seed list and
    [get_offset_manager] has nothing to choose from. *)
Theorem update_without_brokers net st md rng net' g :
  (_get_metadata net st).2 = Return md →
  MetadataResponse.brokers md = [] →
  ∃ st',
    update net st = (st', Return tt)
    ∧ _brokers (self st') = ∅
    ∧ candidates (self st') = CString <$> split ","%char (_seed_hosts (self st))
    ∧ (get_offset_manager rng net' g st').2 = Raise IndexError.
Proof.
  intros Hg Hnil. rewrite update_unfold.
  destruct (_get_metadata_frame net st) as [Hself _].
  destruct (_get_metadata net st) as [st0 r0]. cbn in Hg, Hself. subst r0.
  rewrite Hnil.
  destruct (_update_brokers_spec [] st0)
    as (sta & r & -> & _ & Hsa & _ & Hgone & _ & Hres).
  destruct r as [[]|e|]; [| |done].
  2:{ destruct Hres as (? & ? & ? & Hin & _). by apply elem_of_nil in Hin. }
  destruct (_update_topics_spec (MetadataResponse.topics md) sta)
    as (st' & -> & Hb & Hs & _).
  assert (He : _brokers (self st') = ∅).
  { apply map_eq. intros k. rewrite Hb, lookup_empty. apply Hgone.
    cbn. apply not_elem_of_nil. }
  exists st'. split; [done|]. split; [done|]. split.
  - rewrite (candidates_seeds _ He).
    assert (Hseed : _seed_hosts (self st') = _seed_hosts (self st)).
    { rewrite <- Hself. unfold settings in Hs, Hsa. congruence. }
    by rewrite Hseed.
  - unfold get_offset_manager. by rewrite gom_empty.
Qed.

Lemma update_without_brokers_witness :
  ∃ st',
    update (answering snapshot_no_brokers) two_brokers = (st', Return tt)
    ∧ _brokers (self st') = ∅
    ∧ candidates (self st') = CString <$> split ","%char (_seed_hosts (self two_brokers))
    ∧ (get_offset_manager (λ _, 0) always_timeout "g1" st').2 = Raise IndexError.
Proof.
  apply (update_without_brokers (answering snapshot_no_brokers) two_brokers
           snapshot_no_brokers).
  - vm_compute. reflexivity.
  - reflexivity.
Defined.

Lemma _update_brokers_returns l st :
  NoDup l.*1 →
  (∀ id meta b, (id, meta) ∈ l → _brokers (self st) !! id = Some b → same_address meta b) →
  (_update_brokers l st).2 = Return tt.
Proof.
  intros Hnd Hcompat.
  destruct (_update_brokers_spec l st) as (st' & r & -> & _ & _ & _ & _ & Horig & Hres).
  destruct r as [[]|e|]; [done| |done].
  destruct Hres as (id & meta & b & Hin & Hb & Hbad & _). exfalso. apply Hbad.
  destruct (Horig id b Hb) as [Hold|(_ & meta' & o & Hin' & ->)].
  - by eapply Hcompat.
  - by rewrite (NoDup_fst_functional _ _ _ _ Hnd Hin Hin').
Qed.

Lemma __init___unfold hosts t1 t2 buf excl net st0 :
  __init__ hosts t1 t2 buf excl net st0 = update net (assigned hosts t1 t2 buf excl st0).
Proof. reflexivity. Qed.

(** Construction populates both maps from nothing.  When the first fetch
    returns snapshot [md], [__init__] returns, the object has the settings
    it was given, the broker map has exactly the ids of the snapshot, each
    bound to a handle built from its metadata and the object's timeouts and
    buffer size, and the topic map has exactly the names of the snapshot
    that are not excluded. *)
Theorem construction_populates hosts t1 t2 buf excl net st0 md :
  (_get_metadata net (assigned hosts t1 t2 buf excl st0)).2 = Return md →
  NoDup (MetadataResponse.brokers md).*1 →
  ∃ st,
    __init__ hosts t1 t2 buf excl net st0 = (st, Return tt)
    ∧ settings (self st) = (hosts, t1, t2, buf, excl)
    ∧ (∀ id, is_Some (_brokers (self st) !! id) ↔ id ∈ (MetadataResponse.brokers md).*1)
    ∧ (∀ id meta, (id, meta) ∈ MetadataResponse.brokers md →
         ∃ o, _brokers (self st) !! id = Some (Broker.from_metadata o meta t1 t2 buf))
    ∧ (∀ name, is_Some (_topics (self st) !! name)
               ↔ name ∈ (MetadataResponse.topics md).*1
                 ∧ excl && startswith "__" name = false).
Proof.
  intros Hg Hnd. rewrite __init___unfold, update_unfold.
  set (stI := assigned hosts t1 t2 buf excl st0) in *.
  destruct (_get_metadata_frame net stI) as [Hself _].
  destruct (_get_metadata net stI) as [st0' r0]. cbn in Hg, Hself. subst r0.
  set (lb := MetadataResponse.brokers md) in *.
  pose proof (_update_brokers_returns lb st0' Hnd) as Hret.
  destruct (_update_brokers_spec lb st0')
    as (sta & r & Hrun & Hta & Hsa & _ & Hgone & Horig & Hres).
  rewrite Hrun in Hret. cbn [snd] in Hret. rewrite Hrun.
  rewrite Hself in Hta, Hsa, Horig.
  assert (Hempty : ∀ k, _brokers (self stI) !! k = None) by (intros k; apply lookup_empty).
  assert (Hok : r = Return tt).
  { apply Hret. intros id meta b _ Hb. rewrite Hself, Hempty in Hb. done. }
  subst r.
  destruct (_update_topics_spec (MetadataResponse.topics md) sta)
    as (st & -> & Hb & Hs & Hout & _ & Horigt & Hin & _).
  exists st. split; [done|]. split; [by rewrite Hs, Hsa|]. split; [|split].
  - intros id. rewrite Hb. split.
    + intros Hsome. destruct (decide (id ∈ lb.*1)) as [|Hn]; [done|].
      rewrite (Hgone id Hn) in Hsome. by destruct Hsome.
    + intros ([id' meta] & -> & Hin')%list_elem_of_fmap.
      destruct (Hres _ _ Hin') as (b & ? & _). by exists b.
  - intros id meta Hin'. rewrite Hb.
    destruct (Hres _ _ Hin') as (b & Hbb & _).
    destruct (Horig id b Hbb) as [Hold|(_ & meta' & o & Hin'' & ->)].
    { by rewrite Hempty in Hold. }
    rewrite (NoDup_fst_functional _ _ _ _ Hnd Hin' Hin''). by exists o.
  - intros name.
    assert (Hex : _should_exclude_topic (self sta) name = excl && startswith "__" name).
    { rewrite (_should_exclude_topic_settings _ _ _ Hsa).
      unfold _should_exclude_topic. cbn. by destruct excl. }
    rewrite <- Hex. split.
    + intros Hsome. destruct (decide (name ∈ (MetadataResponse.topics md).*1)) as [Hn|Hn].
      * split; [done|]. destruct (Horigt name Hsome) as [[? Hold]|?]; [|done].
        rewrite Hta in Hold. cbn in Hold. by rewrite lookup_empty in Hold.
      * rewrite (Hout name Hn) in Hsome. by destruct Hsome.
    + intros [Hn He]. by apply Hin.
Qed.

Lemma construction_populates_witness :
  ∃ st,
    __init__ "10.0.0.1:9092" (30 * 1000) (10 * 1000) (64 * 1024) true
      (answering snapshot_1_3) (no_brokers "") = (st, Return tt)
    ∧ settings (self st) = ("10.0.0.1:9092", 30 * 1000, 10 * 1000, 64 * 1024, true)%Z
    ∧ (∀ id, is_Some (_brokers (self st) !! id)
             ↔ id ∈ (MetadataResponse.brokers snapshot_1_3).*1)
    ∧ (∀ id meta, (id, meta) ∈ MetadataResponse.brokers snapshot_1_3 →
         ∃ o, _brokers (self st) !! id
              = Some (Broker.from_metadata o meta (30 * 1000) (10 * 1000) (64 * 1024)))
    ∧ (∀ name, is_Some (_topics (self st) !! name)
               ↔ name ∈ (MetadataResponse.topics snapshot_1_3).*1
                 ∧ true && startswith "__" name = false).
Proof.
  apply (construction_populates "10.0.0.1:9092" (30 * 1000) (10 * 1000) (64 * 1024)
           true (answering snapshot_1_3) (no_brokers "") snapshot_1_3).
  - vm_compute. reflexivity.
  - cbn. apply NoDup_cons. split; [|apply NoDup_singleton].
    intros H%list_elem_of_singleton. discriminate H.
Defined.

(** Eviction forgets the address.  Once a reconciliation has run on a
    snapshot that lacks id [id], whether it returned or raised, a later
    snapshot may bring [id] back at any address: [_update_brokers] returns
    and binds [id] to a handle built from the new metadata.  (The other ids
    of the later snapshot must not have changed address.) *)
Theorem broker_returns_at_any_address st l2 l3 id meta :
  id ∉ l2.*1 →
  NoDup l3.*1 →
  (id, meta) ∈ l3 →
  (∀ id' meta' b', (id', meta') ∈ l3 →
     _brokers (self (_update_brokers l2 st).1) !! id' = Some b' → same_address meta' b') →
  (_update_brokers l3 (_update_brokers l2 st).1).2 = Return tt
  ∧ ∃ o, _brokers (self (_update_brokers l3 (_update_brokers l2 st).1).1) !! id
         = Some (new_broker (self st) o meta).
Proof.
  intros Hid Hnd Hin Hcompat.
  pose proof (_update_brokers_returns l3 (_update_brokers l2 st).1 Hnd Hcompat) as Hret.
  destruct (_update_brokers_spec l2 st) as (st1 & r1 & Hrun1 & _ & Hs1 & _ & Hgone & _).
  rewrite Hrun1 in Hret |- *. cbn [fst] in Hret |- *.
  destruct (_update_brokers_spec l3 st1)
    as (st2 & r2 & Hrun2 & _ & _ & _ & _ & Horig & Hres).
  rewrite Hrun2 in Hret |- *. cbn [fst snd] in Hret |- *. subst r2. split; [done|].
  destruct (Hres _ _ Hin) as (b & Hb & _).
  destruct (Horig id b Hb) as [Hold|(_ & meta' & o & Hin' & ->)].
  { rewrite (Hgone id Hid) in Hold. done. }
  rewrite (NoDup_fst_functional _ _ _ _ Hnd Hin Hin'). exists o.
  by rewrite Hb, (new_broker_settings _ _ _ _ Hs1).
Qed.

Lemma broker_returns_at_any_address_witness :
  (_update_brokers (MetadataResponse.brokers snapshot_moved)
     (_update_brokers (MetadataResponse.brokers snapshot_no_brokers) two_brokers).1).2
  = Return tt
  ∧ ∃ o, _brokers (self (_update_brokers (MetadataResponse.brokers snapshot_moved)
                          (_update_brokers (MetadataResponse.brokers snapshot_no_brokers)
                             two_brokers).1).1) !! 1%Z
         = Some (new_broker (self two_brokers) o (BrokerMetadata.mk 1 "10.0.0.9" 9092)).
Proof.
  apply (broker_returns_at_any_address two_brokers
           (MetadataResponse.brokers snapshot_no_brokers)
           (MetadataResponse.brokers snapshot_moved) 1
           (BrokerMetadata.mk 1 "10.0.0.9" 9092)).
  - apply not_elem_of_nil.
  - cbn. apply NoDup_cons. split; [|apply NoDup_singleton].
    intros H%list_elem_of_singleton. discriminate H.
  - apply list_elem_of_here.
  - intros id' meta' b' _ Hb. vm_compute in Hb. discriminate Hb.
Defined.

(** ** Further properties of [get_offset_manager] *)

(** The cost of a call, whatever the network does: at most three queries,
    one sleep between consecutive queries and none after the last, and at
    most six seconds slept in all. *)
Theorem get_offset_manager_effort st rng net g :
  let evs := new_events st (get_offset_manager rng net g st).1 in
  (length (targets evs) ≤ 3)%nat
  ∧ length (sleeps evs) = (length (targets evs) - 1)%nat
  ∧ (foldr Z.add 0 (sleeps evs) ≤ 6)%Z.
Proof.
  cbn zeta. destruct (pick rng (draws st) (self st)) as [b|] eqn:Hp.
  - rewrite (gom_nonempty _ _ _ _ _ Hp). unfold unrolled.
    destruct (net 1%Z b g); [observe; cbn; by repeat split; lia|].
    destruct (net 2%Z b g); [observe; cbn; by repeat split; lia|].
    destruct (net 3%Z b g); observe; cbn; by repeat split; lia.
  - assert (He : _brokers (self st) = ∅).
    { destruct (decide (_brokers (self st) = ∅)) as [|Hne]; [done|].
      apply (pick_is_Some rng (draws st)) in Hne as [? ?]. congruence. }
    unfold get_offset_manager. rewrite gom_empty by done. cbn [fst].
    rewrite new_events_tick. cbn. by repeat split; lia.
Qed.


(** ** Handles stay under their own id *)

(** If every handle of the broker map sits under its own id, and the
    snapshot is keyed by the ids its metadata carry, then after
    [_update_brokers], returned or raised, every handle of the map still
    sits under its own id. *)
Theorem _update_brokers_keyed_by_id l st id b :
  (∀ k h, _brokers (self st) !! k = Some h → Broker.id h = k) →
  (∀ k meta, (k, meta) ∈ l → BrokerMetadata.id meta = k) →
  _brokers (self (_update_brokers l st).1) !! id = Some b →
  Broker.id b = id.
Proof.
  intros Hst Hl Hb.
  destruct (_update_brokers_spec l st) as (st' & r & Hrun & _ & _ & _ & _ & Horig & _).
  rewrite Hrun in Hb. cbn [fst] in Hb.
  destruct (Horig id b Hb) as [Hold|(_ & meta & o & Hin & ->)].
  - by apply Hst.
  - cbn. by apply Hl.
Qed.

Lemma _update_brokers_keyed_by_id_witness :
  Broker.id (new_broker (self two_brokers) 3
               (BrokerMetadata.mk 3 "10.0.0.3" 9092)) = 3%Z.
Proof.
  apply (_update_brokers_keyed_by_id (MetadataResponse.brokers snapshot_1_3)
           two_brokers 3).
  - intros k h Hk.
    destruct (decide (k = 1%Z)) as [->|H1].
    { vm_compute in Hk. by injection Hk as <-. }
    destruct (decide (k = 2%Z)) as [->|H2].
    { vm_compute in Hk. by injection Hk as <-. }
    cbn in Hk. rewrite !lookup_insert_ne, lookup_empty in Hk by done. done.
  - intros k meta Hin. cbn in Hin.
    apply elem_of_cons in Hin as [Hin|Hin]; [by injection Hin as -> ->|].
    apply list_elem_of_singleton in Hin. by injection Hin as -> ->.
  - vm_compute. reflexivity.
Defined.
